(** * The fhevm universal SDK client: an embedding of its core and its properties

    The embedded code is the TypeScript of
    [packages/fhevm-sdk/src] : the network presets [NETWORKS] and the
    data types of [core/types], and the two classes of [core/FhevmClient],
    [FhevmClientImpl] and [EncryptedInputBuilderImpl].

    The SDK is asynchronous glue over two collaborators, the [fhevmjs]
    engine and an HTTP gateway.  Its methods are embedded as programs over
    the operations they perform on the outside world ([Prog]); a program is
    run either to completion ([run]) or one synchronous segment at a time
    ([advance]), which is how the JavaScript event loop interleaves several
    pending calls. *)

From Stdlib Require Import ZArith List String Bool Lia.
From stdpp Require Import base gmap strings list pretty.

Open Scope Z_scope.
Set Warnings "-register-all".

(** ** JavaScript values, errors and promises *)

(** The values that reach the SDK: the [any] of the builder's entries and
    the parsed JSON bodies of the gateway.  A [number] is kept as an
    integer: the plaintexts of the integer types are integral. *)
Inductive JsValue : Type :=
| JUndefined
| JNull
| JBool (b : bool)
| JNumber (n : Z)
| JBigInt (n : Z)
| JString (s : string)
| JArray (items : list JsValue)
| JObject (fields : list (string * JsValue)).

Inductive JsError : Type :=
| Error (message : string)       (* [new Error(message)], thrown by the SDK *)
| TypeError (message : string)   (* a property read on null or undefined *)
| Foreign (what : string).       (* raised by fetch, json() or the engine *)

(** How a promise settles, and also how a call that may throw ends. *)
Inductive Settled (A : Type) : Type :=
| Fulfilled (a : A)
| Rejected (e : JsError).
Arguments Fulfilled {A} a.
Arguments Rejected {A} e.

Definition is_fulfilled {A} (s : Settled A) : bool :=
  match s with Fulfilled _ => true | Rejected _ => false end.

(** [obj[key]] on the own fields of an object literal, first match. *)
Fixpoint field (key : string) (fields : list (string * JsValue)) : JsValue :=
  match fields with
  | [] => JUndefined
  | (k, v) :: rest => if String.eqb k key then v else field key rest
  end.

(** [data.key]: reading a property of null or undefined throws, an object
    gives the field or undefined, the other values have no such property. *)
Definition get_prop (data : JsValue) (key : string) : Settled JsValue :=
  match data with
  | JUndefined | JNull =>
      Rejected (TypeError ("Cannot read properties of null or undefined: " +:+ key))
  | JObject fields => Fulfilled (field key fields)
  | _ => Fulfilled JUndefined
  end.

(** [a || b] on optional strings: undefined and the empty string are falsy. *)
Definition js_or (a b : option string) : option string :=
  match a with
  | Some s => if String.eqb s "" then b else Some s
  | None => b
  end.

(** [!s] on an optional string. *)
Definition js_not (a : option string) : bool :=
  match a with
  | Some s => String.eqb s ""
  | None => true
  end.

(** ** core/types *)

Module NetworkConfig.
Record t : Type := mk {
  chainId : Z;
  name : string;
  rpcUrl : string;
  gatewayUrl : option string;
  aclAddress : option string;
  kmsVerifierAddress : option string
}.
End NetworkConfig.

(** The blockchain client handle; the SDK core stores it and never uses it. *)
Inductive Provider : Type := BrowserProvider | JsonRpcProvider.

Module FhevmConfig.
Record t : Type := mk {
  network : NetworkConfig.t;
  provider : Provider;
  gatewayUrl : option string;
  aclAddress : option string;
  kmsVerifierAddress : option string
}.
End FhevmConfig.

Record EncryptedInput : Type := {
  handles : list string;
  inputProof : string
}.

Record DecryptionRequest : Type := {
  requestId : Z;
  ciphertext : string;
  contractAddress : string;
  timestamp : Z
}.

Inductive EncryptedType : Type :=
| euint8 | euint16 | euint32 | euint64 | ebool | eaddress.

(** The string literal of each encrypted type. *)
Definition type_name (t : EncryptedType) : string :=
  match t with
  | euint8 => "euint8"
  | euint16 => "euint16"
  | euint32 => "euint32"
  | euint64 => "euint64"
  | ebool => "ebool"
  | eaddress => "eaddress"
  end.

(** Network presets. *)
Definition sepolia : NetworkConfig.t :=
  NetworkConfig.mk 11155111 "Sepolia" "https://rpc.sepolia.org"
    (Some "https://gateway.sepolia.zama.ai")
    (Some "0x339EcE85B9E11a3A3AA557582784a15d7F82AAf2")
    (Some "0x12345...").

Definition zamaDevnet : NetworkConfig.t :=
  NetworkConfig.mk 9000 "Zama Devnet" "https://devnet.zama.ai"
    (Some "https://gateway.devnet.zama.ai")
    (Some "0x2Fb4341...")
    (Some "0x67890...").

Definition zamaTestnet : NetworkConfig.t :=
  NetworkConfig.mk 8009 "Zama Testnet" "https://fhevm-testnet.zama.ai"
    (Some "https://gateway.testnet.zama.ai")
    None
    None.

Definition NETWORKS : gmap string NetworkConfig.t :=
  <["sepolia" := sepolia]>
    (<["zamaDevnet" := zamaDevnet]>
      (<["zamaTestnet" := zamaTestnet]> ∅)).

(** What a property read of the table can give: one of its presets, a
    member that every object inherits, or undefined. *)
Inductive Property : Type :=
| Preset (n : NetworkConfig.t)
| Inherited (member : string)
| Undefined.

(** The members that an object literal inherits from [Object.prototype]. *)
Definition object_prototype : list string :=
  ["constructor"; "__defineGetter__"; "__defineSetter__"; "hasOwnProperty";
   "__lookupGetter__"; "__lookupSetter__"; "isPrototypeOf"; "propertyIsEnumerable";
   "toString"; "valueOf"; "__proto__"; "toLocaleString"].

(** [NETWORKS[name]].  There is no lookup function in the SDK: a network is
    looked up by this property read, which never throws.  It gives the preset
    under a key of the table, else the inherited member of that name, else
    undefined. *)
Definition NETWORKS_at (name : string) : Settled Property :=
  match NETWORKS !! name with
  | Some n => Fulfilled (Preset n)
  | None =>
      if existsb (String.eqb name) object_prototype
      then Fulfilled (Inherited name)
      else Fulfilled Undefined
  end.

(** ** The fhevmjs engine *)

(** The argument of fhevmjs' [createInstance]. *)
Module InstanceOptions.
Record t : Type := mk {
  chainId : Z;
  publicKey : JsValue;
  gatewayUrl : option string;
  aclAddress : option string;
  kmsVerifierAddress : option string
}.
End InstanceOptions.

(** What the SDK consumes of fhevmjs.  The engine is opaque: every
    development below holds for each implementation of this interface.
    A call may throw or reject.  The [nat] of the two encryption calls
    numbers the encryption calls made so far: ciphertexts are randomised,
    so that two calls on equal arguments need not agree. *)
Class Engine : Type := {
  instance : Type;       (* FhevmjsInstance *)
  input : Type;          (* the engine's own input builder *)
  createInstance : InstanceOptions.t -> Settled instance;
  engine_encrypt : nat -> instance -> EncryptedType -> JsValue -> Settled string;
  engine_createEncryptedInput : instance -> string -> string -> Settled input;
  engine_add : EncryptedType -> JsValue -> input -> Settled input;
  engine_input_encrypt : nat -> input -> Settled EncryptedInput
}.

(** ** The gateway and the clock *)

Record Response : Type := {
  status : Z;
  json : Settled JsValue     (* what [response.json()] settles to *)
}.

(** [response.ok]: the status is in the range 200-299. *)
Definition ok (r : Response) : bool := (200 <=? status r) && (status r <=? 299).

(** The environment of a client: [net n url] is the outcome of the [n]-th
    fetch (counted from 0) when it asks for [url], [clock n] is the [n]-th
    reading of [Date.now()]. *)
Record Env : Type := {
  net : nat -> string -> Settled Response;
  clock : nat -> Z
}.

(** ** Programs *)

(** The operations a method performs without giving up control: reads and
    writes of the fields of the client object ([this.instance],
    [this.isInitialized]), a reading of the clock, a call into the engine. *)
Inductive Op `{Engine} : Type -> Type :=
| GetInstance : Op (option instance)
| GetIsInitialized : Op bool
| SetInstance (i : instance) : Op unit
| SetIsInitialized (b : bool) : Op unit
| DateNow : Op Z
| EngineEncrypt (i : instance) (t : EncryptedType) (v : JsValue) : Op (Settled string)
| EngineInputEncrypt (inp : input) : Op (Settled EncryptedInput).

(** The promises a method awaits.  [Tick] is the await of the promise of
    an [async] method of the SDK itself, whose body ran in place. *)
Inductive AsyncOp `{Engine} : Type -> Type :=
| Fetch (url : string) : AsyncOp Response
| ResponseJson (r : Response) : AsyncOp JsValue
| CreateInstance (options : InstanceOptions.t) : AsyncOp instance
| SetTimeout (ms : Z) : AsyncOp unit
| Tick : AsyncOp unit.

(** The body of an [async] method: it returns, throws, performs an
    operation and goes on, or starts an asynchronous operation and is
    suspended until the promise settles. *)
Inductive Prog `{Engine} (A : Type) : Type :=
| Ret (a : A)
| Throw (e : JsError)
| Do {X : Type} (op : Op X) (k : X -> Prog A)
| Await {X : Type} (op : AsyncOp X) (k : Settled X -> Prog A).
Arguments Ret {_ A} a.
Arguments Throw {_ A} e.
Arguments Do {_ A X} op k.
Arguments Await {_ A X} op k.

Fixpoint bind `{Engine} {A B : Type} (p : Prog A) (f : A -> Prog B) : Prog B :=
  match p with
  | Ret a => f a
  | Throw e => Throw e
  | Do op k => Do op (fun x => bind (k x) f)
  | Await op k => Await op (fun x => bind (k x) f)
  end.

Notation "'let!' x ':=' p 'in' q" := (bind p (fun x => q))
  (at level 10, x name, p at level 100, q at level 200).

(** [try { p } catch (error) { h error }]. *)
Fixpoint try_catch `{Engine} {A : Type} (p : Prog A) (h : JsError -> Prog A) : Prog A :=
  match p with
  | Ret a => Ret a
  | Throw e => h e
  | Do op k => Do op (fun x => try_catch (k x) h)
  | Await op k => Await op (fun x => try_catch (k x) h)
  end.

Section Primitives.
Context `{Engine}.

Definition do {X} (op : Op X) : Prog X := Do op Ret.

(** [await promise]: the value of a fulfilled promise, the error of a
    rejected one is thrown. *)
Definition await {X} (op : AsyncOp X) : Prog X :=
  Await op (fun s => match s with Fulfilled x => Ret x | Rejected e => Throw e end).

(** A call that returns or throws at once. *)
Definition settle {X} (s : Settled X) : Prog X :=
  match s with Fulfilled x => Ret x | Rejected e => Throw e end.

(** [await this.method(...)] for an async method of the SDK: the body runs
    up to its end, then the caller awaits the promise it returned. *)
Definition await_call {X} (body : Prog X) : Prog X :=
  let! x := body in
  let! _ := await Tick in
  Ret x.
End Primitives.

(** ** The state of a client and of its world *)

Record World `{Engine} : Type := mkWorld {
  this_instance : option instance;     (* this.instance *)
  this_isInitialized : bool;           (* this.isInitialized *)
  fetched : list string;               (* URLs of the fetch calls so far, oldest first *)
  created : list InstanceOptions.t;    (* arguments of the createInstance calls so far *)
  slept : list Z;                      (* delays of the timers awaited so far *)
  clock_reads : nat;                   (* number of Date.now() calls so far *)
  engine_calls : nat                   (* number of encryption calls so far *)
}.

(** The world of a client that has just been constructed. *)
Definition fresh `{Engine} : World := mkWorld _ None false [] [] [] 0%nat 0%nat.

(** The updates of a world, one per kind of effect. *)
Section Updates.
Context `{Engine}.

Definition set_instance (i : instance) (w : World) : World :=
  mkWorld _ (Some i) (this_isInitialized w) (fetched w) (created w)
    (slept w) (clock_reads w) (engine_calls w).

Definition set_isInitialized (b : bool) (w : World) : World :=
  mkWorld _ (this_instance w) b (fetched w) (created w)
    (slept w) (clock_reads w) (engine_calls w).

Definition log_fetch (url : string) (w : World) : World :=
  mkWorld _ (this_instance w) (this_isInitialized w) (fetched w ++ [url])
    (created w) (slept w) (clock_reads w) (engine_calls w).

Definition log_create (options : InstanceOptions.t) (w : World) : World :=
  mkWorld _ (this_instance w) (this_isInitialized w) (fetched w)
    (created w ++ [options]) (slept w) (clock_reads w) (engine_calls w).

Definition log_sleep (ms : Z) (w : World) : World :=
  mkWorld _ (this_instance w) (this_isInitialized w) (fetched w) (created w)
    (slept w ++ [ms]) (clock_reads w) (engine_calls w).

Definition read_clock (w : World) : World :=
  mkWorld _ (this_instance w) (this_isInitialized w) (fetched w) (created w)
    (slept w) (S (clock_reads w)) (engine_calls w).

Definition count_encryption (w : World) : World :=
  mkWorld _ (this_instance w) (this_isInitialized w) (fetched w) (created w)
    (slept w) (clock_reads w) (S (engine_calls w)).
End Updates.

Section Semantics.
Context `{Engine} (env : Env).

(** One synchronous operation. *)
Definition exec {X} (op : Op X) (w : World) : X * World :=
  match op in Op X return X * World with
  | GetInstance => (this_instance w, w)
  | GetIsInitialized => (this_isInitialized w, w)
  | SetInstance i => (tt, set_instance i w)
  | SetIsInitialized b => (tt, set_isInitialized b w)
  | DateNow => (clock env (clock_reads w), read_clock w)
  | EngineEncrypt i t v =>
      (engine_encrypt (engine_calls w) i t v, count_encryption w)
  | EngineInputEncrypt inp =>
      (engine_input_encrypt (engine_calls w) inp, count_encryption w)
  end.

(** Starting an asynchronous operation: its effect on the world, and how
    its promise will settle.  A timer of [ms] milliseconds fires no
    earlier than [ms] milliseconds later, so the sum of [slept] bounds the
    elapsed time from below. *)
Definition issue {X} (op : AsyncOp X) (w : World) : Settled X * World :=
  match op in AsyncOp X return Settled X * World with
  | Fetch url => (net env (length (fetched w)) url, log_fetch url w)
  | ResponseJson r => (json r, w)
  | CreateInstance options => (createInstance options, log_create options w)
  | SetTimeout ms => (Fulfilled tt, log_sleep ms w)
  | Tick => (Fulfilled tt, w)
  end.

(** A call run to its end with nothing else going on in between. *)
Fixpoint run {A} (p : Prog A) (w : World) : Settled A * World :=
  match p with
  | Ret a => (Fulfilled a, w)
  | Throw e => (Rejected e, w)
  | Do op k => let '(x, w') := exec op w in run (k x) w'
  | Await op k => let '(x, w') := issue op w in run (k x) w'
  end.

(** One turn of a call: it runs up to and including the start of its next
    asynchronous operation, and is left suspended on that promise; a call
    that is over stays as it is. *)
Fixpoint advance {A} (p : Prog A) (w : World) : Prog A * World :=
  match p with
  | Ret a => (Ret a, w)
  | Throw e => (Throw e, w)
  | Do op k => let '(x, w') := exec op w in advance (k x) w'
  | Await op k => let '(x, w') := issue op w in (k x, w')
  end.

(** The event loop on a pool of pending calls: each entry of the schedule
    names the call whose promise settles next and which takes its turn. *)
Definition turn {A} (i : nat) (st : list (Prog A) * World) : list (Prog A) * World :=
  match fst st !! i with
  | Some p => let '(p', w') := advance p (snd st) in (<[i := p']> (fst st), w')
  | None => st
  end.

Definition schedule {A} (order : list nat) (st : list (Prog A) * World)
  : list (Prog A) * World :=
  fold_left (fun st i => turn i st) order st.

(** Calls made one after the other in the same turn of the event loop:
    each runs its first synchronous segment before the next is made. *)
Fixpoint start {A} (calls : list (Prog A)) (w : World) : list (Prog A) * World :=
  match calls with
  | [] => ([], w)
  | p :: rest =>
      let '(p', w') := advance p w in
      let '(ps, w'') := start rest w' in
      (p' :: ps, w'')
  end.
End Semantics.

(** ** core/FhevmClient: class FhevmClientImpl *)

Module FhevmClientImpl.
Section Methods.
Context `{Engine} (config : FhevmConfig.t).

(** [this.config.gatewayUrl || this.config.network.gatewayUrl] *)
Definition gatewayUrl : option string :=
  js_or (FhevmConfig.gatewayUrl config)
        (NetworkConfig.gatewayUrl (FhevmConfig.network config)).

Definition getPublicKey : Prog JsValue :=
  if js_not gatewayUrl then Throw (Error "Gateway URL not configured")
  else
    let! response := await (Fetch (default "" gatewayUrl +:+ "/fhe-key")) in
    let! data := await (ResponseJson response) in
    settle (get_prop data "publicKey").

(** The argument of [createInstance], once the public key is there. *)
Definition instanceOptions (publicKey : JsValue) : InstanceOptions.t :=
  InstanceOptions.mk
    (NetworkConfig.chainId (FhevmConfig.network config))
    publicKey
    gatewayUrl
    (js_or (FhevmConfig.aclAddress config)
           (NetworkConfig.aclAddress (FhevmConfig.network config)))
    (js_or (FhevmConfig.kmsVerifierAddress config)
           (NetworkConfig.kmsVerifierAddress (FhevmConfig.network config))).

(** [!this.instance || !this.isInitialized] *)
Definition notInitialized : Prog bool :=
  let! inst := do GetInstance in
  match inst with
  | None => Ret true
  | Some _ => let! flag := do GetIsInitialized in Ret (negb flag)
  end.

Definition ensureInitialized : Prog (option instance) :=
  let! stale := notInitialized in
  let! _ :=
    if stale then
      let! publicKey := await_call getPublicKey in
      let! created := await (CreateInstance (instanceOptions publicKey)) in
      let! _ := do (SetInstance created) in
      do (SetIsInitialized true)
    else Ret tt in
  do GetInstance.

(** The six scalar methods differ by the engine method they call only. *)
Definition encryptWith (t : EncryptedType) (value : JsValue) : Prog string :=
  let! inst := await_call ensureInitialized in
  match inst with
  | None => Throw (TypeError "Cannot read properties of null")
  | Some i => let! r := do (EngineEncrypt i t value) in settle r
  end.

Definition encrypt8 (value : Z) : Prog string := encryptWith euint8 (JNumber value).
Definition encrypt16 (value : Z) : Prog string := encryptWith euint16 (JNumber value).
Definition encrypt32 (value : Z) : Prog string := encryptWith euint32 (JNumber value).
Definition encrypt64 (value : Z) : Prog string := encryptWith euint64 (JBigInt value).
Definition encryptBool (value : bool) : Prog string := encryptWith ebool (JBool value).
Definition encryptAddress (value : string) : Prog string :=
  encryptWith eaddress (JString value).

Definition requestDecryption (ciphertext contractAddress : string)
  : Prog DecryptionRequest :=
  let! now := do DateNow in
  let! stamp := do DateNow in
  Ret {| requestId := now; ciphertext := ciphertext;
         contractAddress := contractAddress; timestamp := stamp |}.

Definition maxAttempts : nat := 30.
Definition delayMs : Z := 2000.

(** The [try] block of one iteration: [Some v] when it returned [v] from
    the method, [None] when it fell through or its error was caught. *)
Definition attempt (url : string) : Prog (option JsValue) :=
  try_catch
    (let! response := await (Fetch url) in
     if ok response then
       let! data := await (ResponseJson response) in
       let! value := settle (get_prop data "value") in
       Ret (Some value)
     else Ret None)
    (fun _ => Ret None).

(** The [for] loop, by the number of iterations that remain. *)
Fixpoint poll (remaining : nat) (url : string) (requestId : Z) : Prog JsValue :=
  match remaining with
  | O => Throw (Error ("Decryption timeout for request " +:+ pretty requestId))
  | S remaining' =>
      let! returned := attempt url in
      match returned with
      | Some value => Ret value
      | None =>
          let! _ := await (SetTimeout delayMs) in
          poll remaining' url requestId
      end
  end.

Definition awaitDecryption (requestId : Z) : Prog JsValue :=
  if js_not gatewayUrl then Throw (Error "Gateway URL not configured")
  else poll maxAttempts (default "" gatewayUrl +:+ "/decrypt/" +:+ pretty requestId)
            requestId.

End Methods.
End FhevmClientImpl.

(** ** core/FhevmClient: class EncryptedInputBuilderImpl *)

Module EncryptedInputBuilderImpl.
Section Methods.
Context `{Engine}.

Record t : Type := mk {
  getInstance : Prog (option instance);
  contractAddress : string;
  userAddress : string;
  inputs : list (string * JsValue)      (* Array<{ type, value }> *)
}.

(** [this.inputs.push({ type, value }); return this] *)
Definition push (type : string) (value : JsValue) (this : t) : t :=
  mk (getInstance this) (contractAddress this) (userAddress this)
     (inputs this ++ [(type, value)]).

Definition add8 (value : Z) : t -> t := push "euint8" (JNumber value).
Definition add16 (value : Z) : t -> t := push "euint16" (JNumber value).
Definition add32 (value : Z) : t -> t := push "euint32" (JNumber value).
Definition add64 (value : Z) : t -> t := push "euint64" (JBigInt value).
Definition addBool (value : bool) : t -> t := push "ebool" (JBool value).
Definition addAddress (value : string) : t -> t := push "eaddress" (JString value).

(** The [switch] of [getEncrypted]; it has no default case. *)
Definition switch (type : string) (value : JsValue) (inp : input) : Settled input :=
  if String.eqb type "euint8" then engine_add euint8 value inp
  else if String.eqb type "euint16" then engine_add euint16 value inp
  else if String.eqb type "euint32" then engine_add euint32 value inp
  else if String.eqb type "euint64" then engine_add euint64 value inp
  else if String.eqb type "ebool" then engine_add ebool value inp
  else if String.eqb type "eaddress" then engine_add eaddress value inp
  else Fulfilled inp.

(** [for (const { type, value } of this.inputs) switch ...] *)
Fixpoint replay (entries : list (string * JsValue)) (inp : input) : Settled input :=
  match entries with
  | [] => Fulfilled inp
  | (type, value) :: rest =>
      match switch type value inp with
      | Fulfilled inp' => replay rest inp'
      | Rejected e => Rejected e
      end
  end.

Definition getEncrypted (this : t) : Prog EncryptedInput :=
  let! inst := await_call (getInstance this) in
  match inst with
  | None => Throw (TypeError "Cannot read properties of null")
  | Some i =>
      let! inp := settle (engine_createEncryptedInput i (contractAddress this)
                            (userAddress this)) in
      let! inp' := settle (replay (inputs this) inp) in
      let! r := do (EngineInputEncrypt inp') in
      settle r
  end.
End Methods.
End EncryptedInputBuilderImpl.

(** [FhevmClientImpl.createEncryptedInput] *)
Definition createEncryptedInput `{Engine} (config : FhevmConfig.t)
    (contractAddress userAddress : string) : EncryptedInputBuilderImpl.t :=
  EncryptedInputBuilderImpl.mk (FhevmClientImpl.ensureInitialized config)
    contractAddress userAddress [].

(** ** What the statements below are phrased with *)

(** A call of one of the six append methods of a builder. *)
Inductive AddCall : Type :=
| Add8 (value : Z)
| Add16 (value : Z)
| Add32 (value : Z)
| Add64 (value : Z)
| AddBool (value : bool)
| AddAddress (value : string).

Definition apply_call `{Engine} (c : AddCall)
    : EncryptedInputBuilderImpl.t -> EncryptedInputBuilderImpl.t :=
  match c with
  | Add8 v => EncryptedInputBuilderImpl.add8 v
  | Add16 v => EncryptedInputBuilderImpl.add16 v
  | Add32 v => EncryptedInputBuilderImpl.add32 v
  | Add64 v => EncryptedInputBuilderImpl.add64 v
  | AddBool v => EncryptedInputBuilderImpl.addBool v
  | AddAddress v => EncryptedInputBuilderImpl.addAddress v
  end.

(** [b.addX(..).addY(..)...], first call first. *)
Definition apply_calls `{Engine} (calls : list AddCall)
    (b : EncryptedInputBuilderImpl.t) : EncryptedInputBuilderImpl.t :=
  fold_left (fun b c => apply_call c b) calls b.

(** The add-method of the engine's builder that corresponds to an append
    method of the SDK's builder, with its argument. *)
Definition engine_call (c : AddCall) : EncryptedType * JsValue :=
  match c with
  | Add8 v => (euint8, JNumber v)
  | Add16 v => (euint16, JNumber v)
  | Add32 v => (euint32, JNumber v)
  | Add64 v => (euint64, JBigInt v)
  | AddBool v => (ebool, JBool v)
  | AddAddress v => (eaddress, JString v)
  end.

(** The entry that an append method pushes on the builder's array. *)
Definition entry_of (c : AddCall) : string * JsValue :=
  (type_name (fst (engine_call c)), snd (engine_call c)).

(** The add-methods of the engine's builder called one after the other. *)
Fixpoint engine_adds `{Engine} (calls : list (EncryptedType * JsValue)) (inp : input)
    : Settled input :=
  match calls with
  | [] => Fulfilled inp
  | (t, v) :: rest =>
      match engine_add t v inp with
      | Fulfilled inp' => engine_adds rest inp'
      | Rejected e => Rejected e
      end
  end.

(** A batch encryption done on the engine directly: one engine builder for
    the two addresses, the add calls in the order given, one encryption. *)
Definition engine_batch `{Engine} (n : nat) (i : instance)
    (contractAddress userAddress : string) (calls : list (EncryptedType * JsValue))
    : Settled EncryptedInput :=
  match engine_createEncryptedInput i contractAddress userAddress with
  | Fulfilled inp =>
      match engine_adds calls inp with
      | Fulfilled inp' => engine_input_encrypt n inp'
      | Rejected e => Rejected e
      end
  | Rejected e => Rejected e
  end.

(** The entries of a builder read as engine calls; an entry whose type no
    case of the switch matches is passed over. *)
Fixpoint entry_calls (entries : list (string * JsValue)) : list (EncryptedType * JsValue) :=
  match entries with
  | [] => []
  | (type, value) :: rest =>
      let t :=
        if String.eqb type "euint8" then Some euint8
        else if String.eqb type "euint16" then Some euint16
        else if String.eqb type "euint32" then Some euint32
        else if String.eqb type "euint64" then Some euint64
        else if String.eqb type "ebool" then Some ebool
        else if String.eqb type "eaddress" then Some eaddress
        else None in
      match t with
      | Some t => (t, value) :: entry_calls rest
      | None => entry_calls rest
      end
  end.

(** The four unsigned integer types. *)
Inductive UintTag : Type := U8 | U16 | U32 | U64.

Definition bitwidth (u : UintTag) : Z :=
  match u with U8 => 8 | U16 => 16 | U32 => 32 | U64 => 64 end.

Definition uint_type (u : UintTag) : EncryptedType :=
  match u with U8 => euint8 | U16 => euint16 | U32 => euint32 | U64 => euint64 end.

(** The value as the method of that type receives it: a [number], and a
    [bigint] for 64 bits. *)
Definition uint_value (u : UintTag) (value : Z) : JsValue :=
  match u with U64 => JBigInt value | _ => JNumber value end.

Definition encryptUint `{Engine} (config : FhevmConfig.t) (u : UintTag) (value : Z)
    : Prog string :=
  match u with
  | U8 => FhevmClientImpl.encrypt8 config value
  | U16 => FhevmClientImpl.encrypt16 config value
  | U32 => FhevmClientImpl.encrypt32 config value
  | U64 => FhevmClientImpl.encrypt64 config value
  end.

Definition addUint `{Engine} (u : UintTag) (value : Z)
    : EncryptedInputBuilderImpl.t -> EncryptedInputBuilderImpl.t :=
  match u with
  | U8 => EncryptedInputBuilderImpl.add8 value
  | U16 => EncryptedInputBuilderImpl.add16 value
  | U32 => EncryptedInputBuilderImpl.add32 value
  | U64 => EncryptedInputBuilderImpl.add64 value
  end.

(** The client holds an engine handle and its flag is set. *)
Definition initialized `{Engine} (w : World) (i : instance) : Prop :=
  this_instance w = Some i /\ this_isInitialized w = true.


(** What a poll attempt makes of the outcome of its fetch: the value to
    return, if any. *)
Definition attempt_result (o : Settled Response) : option JsValue :=
  match o with
  | Fulfilled r =>
      if ok r then
        match json r with
        | Fulfilled data =>
            match get_prop data "value" with
            | Fulfilled value => Some value
            | Rejected _ => None
            end
        | Rejected _ => None
        end
      else None
  | Rejected _ => None
  end.

(** An optional string that is there and not empty. *)
Definition nonempty (a : option string) : option string :=
  match a with
  | Some s => if String.eqb s "" then None else Some s
  | None => None
  end.

(** The gateway endpoint in effect: the override of the caller when it is
    there and not empty, the endpoint of the network profile otherwise, when
    that is there and not empty. *)
Definition effective_endpoint (config : FhevmConfig.t) : option string :=
  match nonempty (FhevmConfig.gatewayUrl config) with
  | Some g => Some g
  | None => nonempty (NetworkConfig.gatewayUrl (FhevmConfig.network config))
  end.

(** The URL of the public key and of a decryption result. *)
Definition keyUrl (config : FhevmConfig.t) : string :=
  default "" (effective_endpoint config) +:+ "/fhe-key".

Definition decryptUrl (config : FhevmConfig.t) (requestId : Z) : string :=
  default "" (effective_endpoint config) +:+ "/decrypt/" +:+ pretty requestId.

(** The world after [n] poll attempts that were each followed by the delay. *)
Fixpoint polled `{Engine} (n : nat) (url : string) (w : World) : World :=
  match n with
  | O => w
  | S n' => polled n' url (log_sleep FhevmClientImpl.delayMs (log_fetch url w))
  end.


Definition timeoutError (requestId : Z) : JsError :=
  Error ("Decryption timeout for request " +:+ pretty requestId).

(** ** A reference engine and gateway stubs, for the examples *)

Definition show (v : JsValue) : string :=
  match v with
  | JNumber n => pretty n
  | JBigInt n => pretty n +:+ "n"
  | JBool true => "true"
  | JBool false => "false"
  | JString s => s
  | JNull => "null"
  | _ => "undefined"
  end.

Definition handle_of (c : EncryptedType * JsValue) : string :=
  type_name (fst c) +:+ "(" +:+ show (snd c) +:+ ")".

(** An engine that accepts every value and records the add calls of a
    batch in the order it gets them; the handles of a batch are those of
    its calls, in that order. *)
Definition recorder : Engine := {|
  instance := InstanceOptions.t;
  input := list (EncryptedType * JsValue);
  createInstance options := Fulfilled options;
  engine_encrypt n i t v := Fulfilled (handle_of (t, v) +:+ "#" +:+ pretty n);
  engine_createEncryptedInput i c u := Fulfilled [];
  engine_add t v inp := Fulfilled (inp ++ [(t, v)]);
  engine_input_encrypt n inp :=
    Fulfilled {| handles := map handle_of inp; inputProof := "proof#" +:+ pretty n |}
|}.

Definition ticking (n : nat) : Z := 1730000000000 + Z.of_nat n.

(** A gateway that answers every request with a success status, a public
    key and a value. *)
Definition gateway_up : Env := {|
  net _ _ := Fulfilled {| status := 200;
                          json := Fulfilled (JObject [("publicKey", JString "pk");
                                                      ("value", JNumber 42)]) |};
  clock := ticking
|}.


(** A gateway that reports the request as rejected on the first poll and
    has a value on the second. *)
Definition gateway_rejecting : Env := {|
  net n _ :=
    match n with
    | O => Fulfilled {| status := 400;
                        json := Fulfilled (JObject [("error", JString "request rejected")]) |}
    | _ => Fulfilled {| status := 200; json := Fulfilled (JObject [("value", JNumber 42)]) |}
    end;
  clock := ticking
|}.

(** A gateway whose key endpoint answers with a server error and a body
    that has no public key. *)
Definition gateway_keyless : Env := {|
  net _ _ := Fulfilled {| status := 500;
                          json := Fulfilled (JObject [("error", JString "internal")]) |};
  clock := ticking
|}.

(** A gateway as [gateway_up], and a clock that is read several times
    within one millisecond. *)
Definition same_millisecond : Env := {|
  net := net gateway_up;
  clock _ := 1730000000000
|}.

Definition onSepolia : FhevmConfig.t :=
  FhevmConfig.mk sepolia BrowserProvider None None None.

(** The world of a client on Sepolia, with the reference engine, after its
    first initialization against [gateway_up]. *)
Definition ready : @World recorder :=
  snd (@run recorder gateway_up _ (FhevmClientImpl.ensureInitialized onSepolia) fresh).

Definition readyInstance : InstanceOptions.t :=
  InstanceOptions.mk 11155111 (JString "pk") (Some "https://gateway.sepolia.zama.ai")
    (Some "0x339EcE85B9E11a3A3AA557582784a15d7F82AAf2") (Some "0x12345...").

(** [createEncryptedInput(c, u).add32(500).add8(10).addBool(true)] *)
Definition threeCalls : list AddCall := [Add32 500; Add8 10; AddBool true].


(** ** utils/encryption and utils/decryption *)

(** [encrypted.startsWith('0x') ? encrypted : `0x${encrypted}`] *)
Definition formatEncryptedValue (encrypted : string) : string :=
  if negb (String.prefix "0x" encrypted) then "0x" +:+ encrypted else encrypted.

(** The callback that [batchEncrypt] maps over its values.  The value is
    of type [any] and reaches the method of the client as it is. *)
Definition batchEncrypt_callback `{Engine} (fhevm : FhevmConfig.t)
    (entry : string * JsValue) : Prog string :=
  let '(type, value) := entry in
  if String.eqb type "euint8" then FhevmClientImpl.encryptWith fhevm euint8 value
  else if String.eqb type "euint16" then FhevmClientImpl.encryptWith fhevm euint16 value
  else if String.eqb type "euint32" then FhevmClientImpl.encryptWith fhevm euint32 value
  else if String.eqb type "euint64" then FhevmClientImpl.encryptWith fhevm euint64 value
  else if String.eqb type "ebool" then FhevmClientImpl.encryptWith fhevm ebool value
  else if String.eqb type "eaddress" then FhevmClientImpl.encryptWith fhevm eaddress value
  else Throw (Error ("Unsupported type: " +:+ type)).

(** [const promises = values.map(async ({ type, value }) => ...)]: the
    calls of [batchEncrypt], all made in the turn of the event loop in which
    [batchEncrypt] is called. *)
Definition batchEncrypt_promises `{Engine} (fhevm : FhevmConfig.t)
    (values : list (string * JsValue)) : list (Prog string) :=
  map (batchEncrypt_callback fhevm) values.

(** The decrypted values, [bigint | boolean | string]. *)
Inductive Decrypted : Type :=
| DBigInt (n : Z)
| DBool (b : bool)
| DString (s : string).

(** [String(value)] *)
Definition js_String (value : Decrypted) : string :=
  match value with
  | DBigInt n => pretty n
  | DBool true => "true"
  | DBool false => "false"
  | DString s => s
  end.

(** The truth value of [value] in a condition. *)
Definition truthy (value : Decrypted) : bool :=
  match value with
  | DBigInt n => negb (n =? 0)
  | DBool b => b
  | DString s => negb (String.eqb s "")
  end.

(** An index argument of [slice], counted from the end when negative and
    clamped to the string. *)
Definition slice_index (len : nat) (i : Z) : nat :=
  if i <? 0 then Z.to_nat (Z.max (Z.of_nat len + i) 0)
  else Nat.min (Z.to_nat i) len.

(** [s.slice(start, end)], and [s.slice(start)] when [end] is left out. *)
Definition slice (s : string) (start : Z) (stop : option Z) : string :=
  let len := String.length s in
  let from := slice_index len start in
  let to := match stop with Some e => slice_index len e | None => len end in
  String.substring from (to - from) s.

Section Display.
(** [(Number(value) / 100).toFixed(2)], which is floating point arithmetic
    and is not described here. *)
Variable cents : Decrypted -> string.

(** [type] is [None] when the argument is left out. *)
Definition formatDecryptedValue (value : Decrypted) (type : option string) : string :=
  let type := default "number" type in
  if String.eqb type "currency" then "$" +:+ cents value
  else if String.eqb type "number" then js_String value
  else if String.eqb type "boolean" then (if truthy value then "Yes" else "No")
  else if String.eqb type "address" then
    let addr := js_String value in
    slice addr 0 (Some 6) +:+ "..." +:+ slice addr (-4) None
  else js_String value.
End Display.

(** ** More of what the statements are phrased with *)

(** The types that have a case in the switch of [batchEncrypt]. *)
Definition supported (type : string) : bool :=
  existsb (String.eqb type)
    ["euint8"; "euint16"; "euint32"; "euint64"; "ebool"; "eaddress"].

(** A decryption as the SDK's callers do it: the request, then the wait for
    the result of the identifier of that request. *)
Definition requestThenAwait `{Engine} (config : FhevmConfig.t)
    (ciphertext contractAddress : string) : Prog JsValue :=
  let! request := await_call (FhevmClientImpl.requestDecryption ciphertext contractAddress) in
  await_call (FhevmClientImpl.awaitDecryption config (requestId request)).

(** The operations of a client. *)
Inductive Operation : Type :=
| Encrypt (t : EncryptedType) (value : JsValue)
| GetEncrypted (contractAddress userAddress : string) (calls : list AddCall)
| RequestDecryption (ciphertext contractAddress : string)
| AwaitDecryption (requestId : Z).

(** The world after an operation that ran to its end. *)
Definition after `{Engine} (env : Env) (config : FhevmConfig.t) (o : Operation)
    (w : World) : World :=
  match o with
  | Encrypt t value => snd (run env (FhevmClientImpl.encryptWith config t value) w)
  | GetEncrypted c u calls =>
      snd (run env (EncryptedInputBuilderImpl.getEncrypted
                      (apply_calls calls (createEncryptedInput config c u))) w)
  | RequestDecryption ct a => snd (run env (FhevmClientImpl.requestDecryption ct a) w)
  | AwaitDecryption requestId =>
      snd (run env (FhevmClientImpl.awaitDecryption config requestId) w)
  end.

(** The world after operations made one after the other, each awaited. *)
Definition after_all `{Engine} (env : Env) (config : FhevmConfig.t)
    (ops : list Operation) (w : World) : World :=
  fold_left (fun w o => after env config o w) ops w.

(** The flag of the client and its engine handle go together. *)
Definition synced `{Engine} (w : World) : Prop :=
  this_isInitialized w = true <-> this_instance w <> None.

(** An asynchronous operation that is neither a fetch nor the construction
    of an engine. *)
Definition silent `{Engine} {X} (op : AsyncOp X) : bool :=
  match op with
  | Fetch _ | CreateInstance _ => false
  | _ => true
  end.

(** A program that, however it goes on, starts no fetch and constructs no
    engine. *)
Fixpoint quiet `{Engine} {A} (p : Prog A) : Prop :=
  match p with
  | Ret _ | Throw _ => True
  | Do op k => forall x, quiet (k x)
  | Await op k => silent op = true /\ forall x, quiet (k x)
  end.

(** A gateway whose first two answers are failures and whose third has the
    value. *)
Definition gateway_third_poll : Env := {|
  net n _ :=
    match n with
    | O => Rejected (Foreign "connection refused")
    | S O => Fulfilled {| status := 503; json := Rejected (Foreign "Unexpected token") |}
    | _ => Fulfilled {| status := 200; json := Fulfilled (JObject [("value", JNumber 42)]) |}
    end;
  clock := ticking
|}.

(** A gateway that cannot be reached. *)
Definition gateway_down : Env := {|
  net _ _ := Rejected (Foreign "connection refused");
  clock := ticking
|}.

(** An engine as [recorder] whose builder takes no value above 255 for an
    8 bit integer. *)
Definition strict_recorder : Engine := {|
  instance := InstanceOptions.t;
  input := list (EncryptedType * JsValue);
  createInstance options := Fulfilled options;
  engine_encrypt n i t v := Fulfilled (handle_of (t, v) +:+ "#" +:+ pretty n);
  engine_createEncryptedInput i c u := Fulfilled [];
  engine_add t v inp :=
    match t, v with
    | euint8, JNumber n =>
        if (0 <=? n) && (n <=? 255) then Fulfilled (inp ++ [(t, v)])
        else Rejected (Foreign "value out of range")
    | _, _ => Fulfilled (inp ++ [(t, v)])
    end;
  engine_input_encrypt n inp :=
    Fulfilled {| handles := map handle_of inp; inputProof := "proof#" +:+ pretty n |}
|}.

(** A client with no gateway URL, neither its own nor its network's. *)
Definition offGrid : FhevmConfig.t :=
  FhevmConfig.mk
    (NetworkConfig.mk 31337 "Local" "http://localhost:8545" None None None)
    JsonRpcProvider None None None.

(** A poll attempt that comes back without a value: the fetch was rejected,
    the status was not a success status, the body could not be parsed, or
    the parsed body was null. *)
Definition yields_nothing (o : Settled Response) : Prop :=
  match o with
  | Rejected _ => True
  | Fulfilled r =>
      ok r = false \/ (exists e, json r = Rejected e) \/
      json r = Fulfilled JNull \/ json r = Fulfilled JUndefined
  end.


(** A gateway that answers with a success status and a body that cannot be
    parsed. *)
Definition gateway_garbled : Env := {|
  net _ _ := Fulfilled {| status := 200; json := Rejected (Foreign "Unexpected token") |};
  clock := ticking
|}.

(** A gateway whose key endpoint answers with a success status and the body
    [null]. *)
Definition gateway_null : Env := {|
  net _ _ := Fulfilled {| status := 200; json := Fulfilled JNull |};
  clock := ticking
|}.

(** A client on Sepolia whose own gateway URL is the empty string. *)
Definition emptyOverride : FhevmConfig.t :=
  FhevmConfig.mk sepolia BrowserProvider (Some "") None None.

(** * Properties *)

(** ** Running programs *)

Section RunLemmas.
Context `{Engine} (env : Env).

Lemma run_bind {A B} (p : Prog A) (f : A -> Prog B) (w : World) :
  run env (bind p f) w =
  match run env p w with
  | (Fulfilled a, w') => run env (f a) w'
  | (Rejected e, w') => (Rejected e, w')
  end.
Proof.
  revert w. induction p as [a | e | X op k IH | X op k IH]; intros w; simpl.
  - reflexivity.
  - reflexivity.
  - destruct (exec env op w) as [x w']. apply IH.
  - destruct (issue env op w) as [x w']. apply IH.
Qed.

Lemma run_try_catch {A} (p : Prog A) (h : JsError -> Prog A) (w : World) :
  run env (try_catch p h) w =
  match run env p w with
  | (Fulfilled a, w') => (Fulfilled a, w')
  | (Rejected e, w') => run env (h e) w'
  end.
Proof.
  revert w. induction p as [a | e | X op k IH | X op k IH]; intros w; simpl.
  - reflexivity.
  - reflexivity.
  - destruct (exec env op w) as [x w']. apply IH.
  - destruct (issue env op w) as [x w']. apply IH.
Qed.

Lemma run_settle {X} (s : Settled X) (w : World) : run env (settle s) w = (s, w).
Proof. destruct s; reflexivity. Qed.

Lemma run_await {X} (op : AsyncOp X) (w : World) :
  run env (await op) w = issue env op w.
Proof.
  unfold await. simpl. destruct (issue env op w) as [[x | e] w']; reflexivity.
Qed.

(** Awaiting the promise of a method changes nothing of its outcome. *)
Lemma run_await_call {X} (body : Prog X) (w : World) :
  run env (await_call body) w = run env body w.
Proof.
  unfold await_call. rewrite run_bind.
  destruct (run env body w) as [[x | e] w']; reflexivity.
Qed.

(** A turn never takes back a fetch, a timer or an engine construction. *)
Lemma advance_fetched {A} (p : Prog A) (w : World) :
  exists more, fetched (snd (advance env p w)) = fetched w ++ more.
Proof.
  revert w. induction p as [a | e | X op k IH | X op k IH]; intros w; simpl.
  - exists []. symmetry. apply app_nil_r.
  - exists []. symmetry. apply app_nil_r.
  - destruct op; simpl;
      match goal with
      | |- context [advance env (k ?x) ?w'] =>
          destruct (IH x w') as [more Hmore]; exists more; exact Hmore
      end.
  - destruct op; simpl;
      try (exists []; symmetry; apply app_nil_r).
    eexists. reflexivity.
Qed.

Lemma turn_fetched {A} (i : nat) (st : list (Prog A) * World) :
  exists more, fetched (snd (turn env i st)) = fetched (snd st) ++ more.
Proof.
  unfold turn. destruct (fst st !! i) as [p |].
  - destruct (advance_fetched p (snd st)) as [more Hmore].
    destruct (advance env p (snd st)) as [p' w']. exists more. exact Hmore.
  - exists []. symmetry. apply app_nil_r.
Qed.

Lemma schedule_fetched {A} (order : list nat) (st : list (Prog A) * World) :
  exists more, fetched (snd (schedule env order st)) = fetched (snd st) ++ more.
Proof.
  revert st. induction order as [| i order IH]; intros st; simpl.
  - exists []. symmetry. apply app_nil_r.
  - destruct (IH (turn env i st)) as [more2 H2].
    destruct (turn_fetched i st) as [more1 H1].
    exists (more1 ++ more2). unfold schedule in *. simpl.
    rewrite H2, H1. symmetry. apply app_assoc.
Qed.
End RunLemmas.

(** ** The network presets *)

Lemma NETWORKS_own (name : string) (n : NetworkConfig.t) :
  NETWORKS !! name = Some n ->
  (name = "sepolia" /\ n = sepolia) \/
  (name = "zamaDevnet" /\ n = zamaDevnet) \/
  (name = "zamaTestnet" /\ n = zamaTestnet).
Proof.
  unfold NETWORKS. intros Hn.
  destruct (decide (name = "sepolia")) as [-> | H1].
  { rewrite lookup_insert_eq in Hn. left. split; congruence. }
  rewrite lookup_insert_ne in Hn by congruence.
  destruct (decide (name = "zamaDevnet")) as [-> | H2].
  { rewrite lookup_insert_eq in Hn. right. left. split; congruence. }
  rewrite lookup_insert_ne in Hn by congruence.
  destruct (decide (name = "zamaTestnet")) as [-> | H3].
  { rewrite lookup_insert_eq in Hn. right. right. split; congruence. }
  rewrite lookup_insert_ne in Hn by congruence.
  rewrite lookup_empty in Hn. discriminate.
Qed.

Lemma NETWORKS_other (name : string) :
  name <> "sepolia" -> name <> "zamaDevnet" -> name <> "zamaTestnet" ->
  NETWORKS !! name = None.
Proof.
  intros H1 H2 H3. unfold NETWORKS.
  rewrite !lookup_insert_ne by congruence. apply lookup_empty.
Qed.

Lemma inherited_name (name : string) :
  existsb (String.eqb name) object_prototype = true <-> In name object_prototype.
Proof.
  rewrite existsb_exists. split.
  - intros (x & Hin & Heq). apply String.eqb_eq in Heq. subst x. exact Hin.
  - intros Hin. exists name. split; [exact Hin | apply String.eqb_refl].
Qed.

(** C9 does not hold of the code: the lookup of a name that is not
    registered does not fail.  [NETWORKS["doesNotExist"]] is undefined, and
    [NETWORKS["toString"]] is not even that: it is the member that the table
    inherits as every object does. *)
Lemma NETWORKS_unknown_name_does_not_fail :
  NETWORKS_at "doesNotExist" = Fulfilled Undefined /\
  NETWORKS_at "toString" = Fulfilled (Inherited "toString").
Proof. split; reflexivity. Qed.

(** C9 as the code has it: the property read [NETWORKS[name]] gives, for
    "sepolia" and "zamaDevnet", presets that differ and whose chain
    identifiers differ; it never fails; for a name that is none of the
    registered ones it gives undefined, unless the name is that of a member
    that every object inherits, which it then gives; and it gives a preset
    for the registered names only. *)
Theorem NETWORKS_property_read :
  NETWORKS_at "sepolia" = Fulfilled (Preset sepolia) /\
  NETWORKS_at "zamaDevnet" = Fulfilled (Preset zamaDevnet) /\
  sepolia <> zamaDevnet /\
  NetworkConfig.chainId sepolia <> NetworkConfig.chainId zamaDevnet /\
  (forall name : string, exists v, NETWORKS_at name = Fulfilled v) /\
  (forall name : string,
      name <> "sepolia" -> name <> "zamaDevnet" -> name <> "zamaTestnet" ->
      ~ In name object_prototype ->
      NETWORKS_at name = Fulfilled Undefined) /\
  (forall name : string,
      In name object_prototype -> NETWORKS_at name = Fulfilled (Inherited name)) /\
  (forall (name : string) (n : NetworkConfig.t),
      NETWORKS_at name = Fulfilled (Preset n) ->
      (name = "sepolia" /\ n = sepolia) \/
      (name = "zamaDevnet" /\ n = zamaDevnet) \/
      (name = "zamaTestnet" /\ n = zamaTestnet)).
Proof.
  split; [reflexivity |]. split; [reflexivity |].
  split; [discriminate |]. split; [discriminate |].
  split; [| split; [| split]].
  - intros name. unfold NETWORKS_at.
    destruct (NETWORKS !! name); [eexists; reflexivity |].
    destruct (existsb (String.eqb name) object_prototype); eexists; reflexivity.
  - intros name H1 H2 H3 Hnot. unfold NETWORKS_at.
    rewrite (NETWORKS_other name H1 H2 H3).
    destruct (existsb (String.eqb name) object_prototype) eqn:Hex; [| reflexivity].
    apply inherited_name in Hex. contradiction.
  - intros name Hin. unfold object_prototype in Hin. simpl in Hin.
    repeat (destruct Hin as [<- | Hin]; [reflexivity |]). contradiction.
  - intros name n Hat. unfold NETWORKS_at in Hat.
    destruct (NETWORKS !! name) as [m |] eqn:Hm.
    + inversion Hat; subst m. apply NETWORKS_own. exact Hm.
    + destruct (existsb (String.eqb name) object_prototype); discriminate.
Qed.

Lemma NETWORKS_property_read_unknown :
  "doesNotExist" <> "sepolia" /\ "doesNotExist" <> "zamaDevnet" /\
  "doesNotExist" <> "zamaTestnet" /\ ~ In "doesNotExist" object_prototype /\
  NETWORKS_at "doesNotExist" = Fulfilled Undefined /\
  In "constructor" object_prototype /\
  NETWORKS_at "constructor" = Fulfilled (Inherited "constructor").
Proof.
  assert (Hnot : ~ In "doesNotExist" object_prototype).
  { intros Hin. apply inherited_name in Hin. discriminate. }
  assert (Hin : In "constructor" object_prototype) by (left; reflexivity).
  split; [discriminate |]. split; [discriminate |]. split; [discriminate |].
  split; [exact Hnot |]. split.
  - apply (proj1 (proj2 (proj2 (proj2 (proj2 (proj2 NETWORKS_property_read))))));
      (discriminate || exact Hnot).
  - split; [exact Hin |].
    apply (proj1 (proj2 (proj2 (proj2 (proj2 (proj2 (proj2 NETWORKS_property_read))))))).
    exact Hin.
Defined.

(** ** The gateway endpoint *)

Section Endpoint.
Context `{Engine} (config : FhevmConfig.t).

Lemma gatewayUrl_missing :
  js_not (FhevmClientImpl.gatewayUrl config) = true <-> effective_endpoint config = None.
Proof.
  unfold FhevmClientImpl.gatewayUrl, effective_endpoint, js_or, js_not, nonempty.
  destruct (FhevmConfig.gatewayUrl config) as [a |];
    destruct (NetworkConfig.gatewayUrl (FhevmConfig.network config)) as [b |];
    try destruct (String.eqb a "") eqn:Ea; try destruct (String.eqb b "") eqn:Eb;
    simpl; rewrite ?Ea, ?Eb; split; congruence.
Qed.

Lemma gatewayUrl_configured :
  js_not (FhevmClientImpl.gatewayUrl config) = false ->
  FhevmClientImpl.gatewayUrl config = effective_endpoint config.
Proof.
  unfold FhevmClientImpl.gatewayUrl, effective_endpoint, js_or, js_not, nonempty.
  destruct (FhevmConfig.gatewayUrl config) as [a |];
    destruct (NetworkConfig.gatewayUrl (FhevmConfig.network config)) as [b |];
    try destruct (String.eqb a "") eqn:Ea; try destruct (String.eqb b "") eqn:Eb;
    simpl; rewrite ?Ea, ?Eb; congruence.
Qed.
End Endpoint.

(** ** Polling for a decryption result *)

Section Polling.
Context `{Engine} (env : Env) (config : FhevmConfig.t).

Lemma fetched_polled (n : nat) (url : string) (w : World) :
  fetched (polled n url w) = fetched w ++ replicate n url.
Proof.
  revert w. induction n as [| n IH]; intros w; simpl.
  - symmetry. apply app_nil_r.
  - rewrite IH. simpl. rewrite <- app_assoc. reflexivity.
Qed.

Lemma slept_polled (n : nat) (url : string) (w : World) :
  slept (polled n url w) = slept w ++ replicate n FhevmClientImpl.delayMs.
Proof.
  revert w. induction n as [| n IH]; intros w; simpl.
  - symmetry. apply app_nil_r.
  - rewrite IH. simpl. rewrite <- app_assoc. reflexivity.
Qed.



(** One attempt: one fetch, and a value to return or nothing. *)
Lemma run_attempt (url : string) (w : World) :
  run env (FhevmClientImpl.attempt url) w =
  (Fulfilled (attempt_result (net env (length (fetched w)) url)), log_fetch url w).
Proof.
  unfold FhevmClientImpl.attempt. rewrite run_try_catch, run_bind, run_await.
  simpl. unfold attempt_result.
  destruct (net env (length (fetched w)) url) as [r | e]; [| reflexivity].
  destruct (ok r); [| reflexivity].
  simpl. destruct (json r) as [data | e]; [| reflexivity].
  simpl. destruct (get_prop data "value"); reflexivity.
Qed.

Lemma run_poll_return (n : nat) (url : string) (requestId : Z) (w : World) (v : JsValue) :
  attempt_result (net env (length (fetched w)) url) = Some v ->
  run env (FhevmClientImpl.poll (S n) url requestId) w = (Fulfilled v, log_fetch url w).
Proof.
  intros Hv. cbn [FhevmClientImpl.poll]. rewrite run_bind, run_attempt, Hv. reflexivity.
Qed.

Lemma run_poll_next (n : nat) (url : string) (requestId : Z) (w : World) :
  attempt_result (net env (length (fetched w)) url) = None ->
  run env (FhevmClientImpl.poll (S n) url requestId) w =
  run env (FhevmClientImpl.poll n url requestId)
      (log_sleep FhevmClientImpl.delayMs (log_fetch url w)).
Proof.
  intros Hv. cbn [FhevmClientImpl.poll]. rewrite run_bind, run_attempt, Hv.
  rewrite run_bind, run_await. reflexivity.
Qed.


Lemma nothing_attempt_result (o : Settled Response) :
  yields_nothing o <-> attempt_result o = None.
Proof.
  destruct o as [r | e]; simpl; [| tauto].
  destruct (ok r); [| tauto].
  destruct (json r) as [data | e].
  - destruct data; simpl; split; intros Hx;
      try discriminate; try tauto;
      try (destruct Hx as [Hx | [[e Hx] | [Hx | Hx]]]; discriminate).
  - split; [reflexivity | intros _; right; left; exists e; reflexivity].
Qed.

(** The loop: it returns at the first attempt that has a value, after as
    many fetches and one delay less; it throws after [n] attempts and [n]
    delays when none has. *)
Lemma run_poll (n : nat) (url : string) (requestId : Z) (w : World) :
  (exists j v, (j < n)%nat /\
     (forall i, (i < j)%nat ->
        attempt_result (net env (length (fetched w) + i) url) = None) /\
     attempt_result (net env (length (fetched w) + j) url) = Some v /\
     run env (FhevmClientImpl.poll n url requestId) w =
     (Fulfilled v, log_fetch url (polled j url w)))
  \/
  ((forall i, (i < n)%nat ->
      attempt_result (net env (length (fetched w) + i) url) = None) /\
   run env (FhevmClientImpl.poll n url requestId) w =
   (Rejected (timeoutError requestId), polled n url w)).
Proof.
  revert w. induction n as [| n IH]; intros w.
  - right. split; [intros i Hi; lia | reflexivity].
  - destruct (attempt_result (net env (length (fetched w)) url)) as [v |] eqn:Hfirst.
    + left. exists 0%nat, v. split; [lia |]. split; [intros i Hi; lia |].
      rewrite Nat.add_0_r. split; [exact Hfirst |].
      apply run_poll_return. exact Hfirst.
    + rewrite (run_poll_next n url requestId w Hfirst).
      set (w1 := log_sleep FhevmClientImpl.delayMs (log_fetch url w)).
      assert (Hlen : length (fetched w1) = S (length (fetched w))).
      { unfold w1. simpl. rewrite length_app. simpl. lia. }
      destruct (IH w1) as [(j & v & Hj & Hbefore & Hat & Hrun) | [Hnone Hrun]].
      * left. exists (S j), v. split; [lia |].
        split.
        { intros [| i] Hi.
          - rewrite Nat.add_0_r. exact Hfirst.
          - specialize (Hbefore i ltac:(lia)). rewrite Hlen in Hbefore.
            replace (length (fetched w) + S i)%nat with (S (length (fetched w)) + i)%nat by lia.
            exact Hbefore. }
        split.
        { rewrite Hlen in Hat.
          replace (length (fetched w) + S j)%nat with (S (length (fetched w)) + j)%nat by lia.
          exact Hat. }
        exact Hrun.
      * right. split; [| exact Hrun].
        intros [| i] Hi.
        { rewrite Nat.add_0_r. exact Hfirst. }
        specialize (Hnone i ltac:(lia)). rewrite Hlen in Hnone.
        replace (length (fetched w) + S i)%nat with (S (length (fetched w)) + i)%nat by lia.
        exact Hnone.
Qed.

Lemma run_awaitDecryption_unconfigured (requestId : Z) (w : World) :
  effective_endpoint config = None ->
  run env (FhevmClientImpl.awaitDecryption config requestId) w =
  (Rejected (Error "Gateway URL not configured"), w).
Proof.
  intros Hnone. apply gatewayUrl_missing in Hnone.
  unfold FhevmClientImpl.awaitDecryption. rewrite Hnone. reflexivity.
Qed.

Lemma run_awaitDecryption_configured (requestId : Z) (w : World) :
  effective_endpoint config <> None ->
  run env (FhevmClientImpl.awaitDecryption config requestId) w =
  run env (FhevmClientImpl.poll FhevmClientImpl.maxAttempts
             (decryptUrl config requestId) requestId) w.
Proof.
  intros Hsome. unfold FhevmClientImpl.awaitDecryption, decryptUrl.
  destruct (js_not (FhevmClientImpl.gatewayUrl config)) eqn:Hnot.
  - apply gatewayUrl_missing in Hnot. contradiction.
  - rewrite (gatewayUrl_configured config Hnot). reflexivity.
Qed.





End Polling.

Section PollingClaims.
Context `{Engine} (env : Env) (config : FhevmConfig.t).


(** C6 as the code has it: an attempt that comes back without a value, be
    it that the fetch failed, that the response has no success status (also
    when the gateway reports the request as rejected), that its body cannot
    be parsed or that the body is null, is followed by the delay and the
    next attempt; [awaitDecryption] fails for two reasons only, a gateway
    URL that is not configured, before any poll, and the timeout after the
    30th attempt. *)
Theorem awaitDecryption_swallows_failed_attempts (requestId : Z) (w : World) :
  let res := run env (FhevmClientImpl.awaitDecryption config requestId) w in
  let url := decryptUrl config requestId in
  (forall n, yields_nothing (net env (length (fetched w)) url) ->
      run env (FhevmClientImpl.poll (S n) url requestId) w =
      run env (FhevmClientImpl.poll n url requestId)
          (log_sleep FhevmClientImpl.delayMs (log_fetch url w))) /\
  (forall e, fst res = Rejected e ->
      (effective_endpoint config = None /\
       e = Error "Gateway URL not configured" /\ snd res = w) \/
      (e = timeoutError requestId /\
       fetched (snd res) = fetched w ++ replicate 30 url /\
       slept (snd res) = slept w ++ replicate 30 2000)).
Proof.
  intros res url. split.
  - intros n Hfail. apply run_poll_next. apply nothing_attempt_result. exact Hfail.
  - intros e He.
    destruct (effective_endpoint config) as [g |] eqn:Hg.
    + right.
      assert (Hsome : effective_endpoint config <> None) by congruence.
      assert (Hres : res = run env (FhevmClientImpl.poll FhevmClientImpl.maxAttempts
                                      url requestId) w).
      { apply run_awaitDecryption_configured. exact Hsome. }
      destruct (run_poll env FhevmClientImpl.maxAttempts url requestId w)
        as [(j & v & Hj & Hbefore & Hat & Hrun) | [Hnone Hrun]].
      * rewrite Hres, Hrun in He. discriminate.
      * rewrite Hres, Hrun in He. simpl in He.
        split; [congruence |].
        rewrite Hres, Hrun. split; [apply fetched_polled | apply slept_polled].
    + left.
      assert (Hres : res = (Rejected (Error "Gateway URL not configured"), w)).
      { apply run_awaitDecryption_unconfigured. exact Hg. }
      rewrite Hres in He. simpl in He. split; [reflexivity |].
      split; [congruence | rewrite Hres; reflexivity].
Qed.
End PollingClaims.

(** ** Initialization *)

Section Initialization.
Context `{Engine} (env : Env) (config : FhevmConfig.t).

Lemma run_getPublicKey (w : World) :
  run env (FhevmClientImpl.getPublicKey config) w =
  match effective_endpoint config with
  | None => (Rejected (Error "Gateway URL not configured"), w)
  | Some g =>
      (match net env (length (fetched w)) (g +:+ "/fhe-key") with
       | Fulfilled response =>
           match json response with
           | Fulfilled data => get_prop data "publicKey"
           | Rejected e => Rejected e
           end
       | Rejected e => Rejected e
       end,
       log_fetch (g +:+ "/fhe-key") w)
  end.
Proof.
  unfold FhevmClientImpl.getPublicKey.
  destruct (js_not (FhevmClientImpl.gatewayUrl config)) eqn:Hnot.
  - apply gatewayUrl_missing in Hnot. rewrite Hnot. reflexivity.
  - rewrite (gatewayUrl_configured config Hnot).
    destruct (effective_endpoint config) as [g |] eqn:Hg.
    + simpl. destruct (net env (length (fetched w)) (g +:+ "/fhe-key")) as [r | e];
        [| reflexivity].
      simpl. destruct (json r) as [data | e]; [| reflexivity].
      simpl. destruct (get_prop data "publicKey"); reflexivity.
    + apply gatewayUrl_missing in Hg. congruence.
Qed.

Lemma run_notInitialized (w : World) :
  run env (FhevmClientImpl.notInitialized) w =
  (Fulfilled match this_instance w with
             | Some _ => negb (this_isInitialized w)
             | None => true
             end, w).
Proof.
  unfold FhevmClientImpl.notInitialized. simpl.
  destruct (this_instance w); reflexivity.
Qed.

(** A client that is initialized hands out its engine handle and does
    nothing else. *)
Lemma run_ensureInitialized_ready (w : World) (i : instance) :
  initialized w i ->
  run env (FhevmClientImpl.ensureInitialized config) w = (Fulfilled (Some i), w).
Proof.
  intros [Hi Hflag]. unfold FhevmClientImpl.ensureInitialized.
  rewrite run_bind, run_notInitialized, Hi, Hflag. simpl. rewrite Hi. reflexivity.
Qed.

(** A client that is not fetches the key, builds the engine and keeps it. *)
Lemma run_ensureInitialized_first (w : World) :
  this_instance w = None \/ this_isInitialized w = false ->
  run env (FhevmClientImpl.ensureInitialized config) w =
  match run env (FhevmClientImpl.getPublicKey config) w with
  | (Fulfilled publicKey, w1) =>
      let options := FhevmClientImpl.instanceOptions config publicKey in
      match createInstance options with
      | Fulfilled i =>
          (Fulfilled (Some i), set_isInitialized true (set_instance i (log_create options w1)))
      | Rejected e => (Rejected e, log_create options w1)
      end
  | (Rejected e, w1) => (Rejected e, w1)
  end.
Proof.
  intros Hstale. unfold FhevmClientImpl.ensureInitialized.
  rewrite run_bind, run_notInitialized.
  assert (Hs : match this_instance w with
               | Some _ => negb (this_isInitialized w)
               | None => true
               end = true).
  { destruct Hstale as [Hn | Hf]; [rewrite Hn; reflexivity |].
    rewrite Hf. destruct (this_instance w); reflexivity. }
  rewrite Hs. rewrite run_bind, run_bind, run_await_call.
  destruct (run env (FhevmClientImpl.getPublicKey config) w) as [[publicKey | e] w1];
    [| reflexivity].
  rewrite run_bind, run_await. simpl.
  destruct (createInstance (FhevmClientImpl.instanceOptions config publicKey));
    reflexivity.
Qed.

Lemma run_ensureInitialized_fulfilled (w w' : World) (r : option instance) :
  run env (FhevmClientImpl.ensureInitialized config) w = (Fulfilled r, w') ->
  exists i, r = Some i /\ initialized w' i.
Proof.
  intros Hrun.
  destruct (this_instance w) as [i |] eqn:Hi.
  - destruct (this_isInitialized w) eqn:Hflag.
    + rewrite (run_ensureInitialized_ready w i) in Hrun by (split; assumption).
      inversion Hrun; subst. exists i. split; [reflexivity | split; assumption].
    + rewrite run_ensureInitialized_first in Hrun by (right; exact Hflag).
      destruct (run env (FhevmClientImpl.getPublicKey config) w) as [[pk | e] w1];
        [| discriminate].
      simpl in Hrun.
      destruct (createInstance (FhevmClientImpl.instanceOptions config pk)) as [j | e];
        [| discriminate].
      inversion Hrun; subst. exists j. split; [reflexivity | split; reflexivity].
  - rewrite run_ensureInitialized_first in Hrun by (left; exact Hi).
    destruct (run env (FhevmClientImpl.getPublicKey config) w) as [[pk | e] w1];
      [| discriminate].
    simpl in Hrun.
    destruct (createInstance (FhevmClientImpl.instanceOptions config pk)) as [j | e];
      [| discriminate].
    inversion Hrun; subst. exists j. split; [reflexivity | split; reflexivity].
Qed.

(** After a successful initialization the following operations take the
    handle that was kept: no fetch, no engine construction. *)
Lemma ensureInitialized_memoized (w w1 : World) (r : option instance) :
  run env (FhevmClientImpl.ensureInitialized config) w = (Fulfilled r, w1) ->
  run env (FhevmClientImpl.ensureInitialized config) w1 = (Fulfilled r, w1).
Proof.
  intros Hrun. destruct (run_ensureInitialized_fulfilled w w1 r Hrun) as (i & -> & Hi).
  apply run_ensureInitialized_ready. exact Hi.
Qed.

(** The first turn of an operation of a client that has no engine handle
    yet ends with the fetch of the public key under way. *)
Lemma advance_encryptWith_first (t : EncryptedType) (value : JsValue) (w : World) :
  effective_endpoint config <> None ->
  this_instance w = None ->
  snd (advance env (FhevmClientImpl.encryptWith config t value) w) =
  log_fetch (keyUrl config) w.
Proof.
  intros Hsome Hnone.
  assert (Hnot : js_not (FhevmClientImpl.gatewayUrl config) = false).
  { destruct (js_not (FhevmClientImpl.gatewayUrl config)) eqn:Hnot; [| reflexivity].
    apply gatewayUrl_missing in Hnot. contradiction. }
  unfold FhevmClientImpl.encryptWith, await_call, FhevmClientImpl.ensureInitialized,
    FhevmClientImpl.notInitialized, FhevmClientImpl.getPublicKey, keyUrl.
  simpl. rewrite Hnone. simpl. rewrite Hnot.
  rewrite (gatewayUrl_configured config Hnot). reflexivity.
Qed.
End Initialization.

Section ClientClaims.
Context `{Engine} (env : Env) (config : FhevmConfig.t).

Lemma created_getPublicKey (w : World) :
  created (snd (run env (FhevmClientImpl.getPublicKey config) w)) = created w.
Proof.
  rewrite run_getPublicKey. destruct (effective_endpoint config); reflexivity.
Qed.

(** C7 as the code has it: the endpoint in effect is the override of the
    caller when it is there and not empty, else that of the network
    profile, and the error "Gateway URL not configured" is thrown, with no
    request made, when there is none; else one GET of [endpoint/fhe-key]
    is made, and the outcome is the [publicKey] property of the parsed
    body, whatever the status of the response and be the property there
    or not.  The call fails in these cases and in no other: no endpoint,
    the request fails, the body cannot be parsed, the body is null.  The
    first use of a client makes this request and no other, and builds no
    engine when it fails. *)
Theorem getPublicKey_outcome (w : World) :
  run env (FhevmClientImpl.getPublicKey config) w =
  match effective_endpoint config with
  | None => (Rejected (Error "Gateway URL not configured"), w)
  | Some g =>
      (match net env (length (fetched w)) (g +:+ "/fhe-key") with
       | Fulfilled response =>
           match json response with
           | Fulfilled data => get_prop data "publicKey"
           | Rejected e => Rejected e
           end
       | Rejected e => Rejected e
       end,
       log_fetch (g +:+ "/fhe-key") w)
  end /\
  ((exists e, fst (run env (FhevmClientImpl.getPublicKey config) w) = Rejected e) <->
   match effective_endpoint config with
   | None => True
   | Some g =>
       match net env (length (fetched w)) (g +:+ "/fhe-key") with
       | Fulfilled response =>
           (exists e, json response = Rejected e) \/
           json response = Fulfilled JNull \/ json response = Fulfilled JUndefined
       | Rejected _ => True
       end
   end) /\
  (this_instance w = None ->
   let first := run env (FhevmClientImpl.ensureInitialized config) w in
   let key := run env (FhevmClientImpl.getPublicKey config) w in
   fetched (snd first) = fetched (snd key) /\
   forall e, fst key = Rejected e ->
     fst first = Rejected e /\ created (snd first) = created w).
Proof.
  split; [apply run_getPublicKey |]. split.
  - rewrite run_getPublicKey.
    destruct (effective_endpoint config) as [g |]; simpl;
      [| split; [tauto | intros _; eexists; reflexivity]].
    destruct (net env (length (fetched w)) (g +:+ "/fhe-key")) as [r | e];
      [| split; [tauto | intros _; eexists; reflexivity]].
    destruct (json r) as [data | e].
    + destruct data; simpl; split;
        try (intros [e He]; discriminate);
        try (intros [[e He] | [He | He]]; discriminate);
        try (intros _; eexists; reflexivity);
        try (intros _; right; left; reflexivity);
        intros _; right; right; reflexivity.
    + split; [intros _; left; exists e; reflexivity | intros _; eexists; reflexivity].
  - intros Hnone first key. unfold first.
    rewrite run_ensureInitialized_first by (left; exact Hnone).
    pose proof (created_getPublicKey w) as Hcreated. fold key in Hcreated |- *.
    destruct key as [[pk | e] w1]; simpl in *.
    + split; [| intros e He; discriminate].
      destruct (createInstance (FhevmClientImpl.instanceOptions config pk)); reflexivity.
    + split; [reflexivity |]. intros e' He. split; [congruence | exact Hcreated].
Qed.

Lemma run_encryptWith_ready (t : EncryptedType) (value : JsValue) (w : World)
    (i : instance) :
  initialized w i ->
  run env (FhevmClientImpl.encryptWith config t value) w =
  (engine_encrypt (engine_calls w) i t value, count_encryption w).
Proof.
  intros Hi. unfold FhevmClientImpl.encryptWith.
  rewrite run_bind, run_await_call, (run_ensureInitialized_ready env config w i Hi).
  simpl. destruct (engine_encrypt (engine_calls w) i t value); reflexivity.
Qed.

Lemma run_encryptWith (t : EncryptedType) (value : JsValue) (w : World) :
  run env (FhevmClientImpl.encryptWith config t value) w =
  match run env (FhevmClientImpl.ensureInitialized config) w with
  | (Fulfilled (Some i), w1) =>
      (engine_encrypt (engine_calls w1) i t value, count_encryption w1)
  | (Fulfilled None, w1) => (Rejected (TypeError "Cannot read properties of null"), w1)
  | (Rejected e, w1) => (Rejected e, w1)
  end.
Proof.
  unfold FhevmClientImpl.encryptWith. rewrite run_bind, run_await_call.
  destruct (run env (FhevmClientImpl.ensureInitialized config) w) as [[[i |] | e] w1];
    try reflexivity.
  simpl. destruct (engine_encrypt (engine_calls w1) i t value); reflexivity.
Qed.

(** C2 as the code has it: neither the scalar operation nor the append
    operation of an unsigned integer type checks the value.  On every
    client the scalar operation first sees to the initialization; when that
    fails it fails with the same error, and when it gives the engine handle
    the operation hands the value as it is to the engine and its outcome is
    the outcome of the engine.  On a client that is initialized nothing
    else happens.  The append operation records the value as it is and
    cannot fail. *)
Theorem encrypt_hands_value_to_engine (u : UintTag) (value : Z) (w : World) :
  match run env (FhevmClientImpl.ensureInitialized config) w with
  | (Fulfilled (Some i), w1) =>
      run env (encryptUint config u value) w =
      (engine_encrypt (engine_calls w1) i (uint_type u) (uint_value u value),
       count_encryption w1)
  | (Fulfilled None, _) => False
  | (Rejected e, w1) => run env (encryptUint config u value) w = (Rejected e, w1)
  end /\
  (forall i, initialized w i ->
     run env (encryptUint config u value) w =
     (engine_encrypt (engine_calls w) i (uint_type u) (uint_value u value),
      count_encryption w)) /\
  forall b,
    EncryptedInputBuilderImpl.inputs (addUint u value b) =
    EncryptedInputBuilderImpl.inputs b ++ [(type_name (uint_type u), uint_value u value)].
Proof.
  assert (Hrun : run env (encryptUint config u value) w =
                 run env (FhevmClientImpl.encryptWith config (uint_type u)
                            (uint_value u value)) w)
    by (destruct u; reflexivity).
  split; [| split].
  - rewrite Hrun, run_encryptWith.
    destruct (run env (FhevmClientImpl.ensureInitialized config) w)
      as [[[i |] | e] w1] eqn:Hinit; try reflexivity.
    destruct (run_ensureInitialized_fulfilled env config w w1 None Hinit)
      as (i & Hi & _). discriminate.
  - intros i Hi. rewrite Hrun. apply run_encryptWith_ready. exact Hi.
  - intros b. destruct u; reflexivity.
Qed.

(** C8 as the code has it: [requestDecryption] is over within its first
    turn, with no request to the network; the request carries the reading
    of the clock in milliseconds as its [requestId] and the next reading
    as its [timestamp].  Two requests made one after the other have the
    same [requestId] exactly when the clock shows the same millisecond at
    both. *)
Theorem requestDecryption_outcome (c1 a1 c2 a2 : string) (w : World) :
  let first := {| requestId := clock env (clock_reads w);
                  ciphertext := c1; contractAddress := a1;
                  timestamp := clock env (S (clock_reads w)) |} in
  let second := {| requestId := clock env (S (S (clock_reads w)));
                   ciphertext := c2; contractAddress := a2;
                   timestamp := clock env (S (S (S (clock_reads w)))) |} in
  let w1 := read_clock (read_clock w) in
  advance env (FhevmClientImpl.requestDecryption c1 a1) w = (Ret first, w1) /\
  run env (FhevmClientImpl.requestDecryption c1 a1) w = (Fulfilled first, w1) /\
  fetched w1 = fetched w /\
  run env (FhevmClientImpl.requestDecryption c2 a2) w1 =
    (Fulfilled second, read_clock (read_clock w1)) /\
  (requestId first = requestId second <->
   clock env (clock_reads w) = clock env (S (S (clock_reads w)))).
Proof.
  intros first second w1. repeat split; auto.
Qed.

Lemma start_two {A} (p1 p2 : Prog A) (w : World) :
  snd (start env [p1; p2] w) = snd (advance env p2 (snd (advance env p1 w))).
Proof.
  simpl. destruct (advance env p1 w) as [p1' w1]. simpl.
  destruct (advance env p2 w1) as [p2' w2]. reflexivity.
Qed.

(** C4, where the code departs from it: two operations started on a client
    that has no engine handle yet each fetch the public key.  Both
    requests are under way before either is answered, and whatever the
    order in which the pending calls go on, the fetches made begin with
    these two. *)
Theorem concurrent_first_calls_fetch_twice
    (t1 t2 : EncryptedType) (x1 x2 : JsValue) (order : list nat) :
  effective_endpoint config <> None ->
  let calls := [FhevmClientImpl.encryptWith config t1 x1;
                FhevmClientImpl.encryptWith config t2 x2] in
  fetched (snd (start env calls fresh)) = [keyUrl config; keyUrl config] /\
  exists more,
    fetched (snd (schedule env order (start env calls fresh)))
    = [keyUrl config; keyUrl config] ++ more.
Proof.
  intros Hsome calls.
  assert (Hstart : fetched (snd (start env calls fresh))
                   = [keyUrl config; keyUrl config]).
  { unfold calls. rewrite start_two.
    rewrite (advance_encryptWith_first env config t1 x1 fresh Hsome) by reflexivity.
    rewrite (advance_encryptWith_first env config t2 x2 _ Hsome) by reflexivity.
    reflexivity. }
  split; [exact Hstart |].
  destruct (schedule_fetched env order (start env calls fresh)) as [more Hmore].
  exists more. rewrite Hmore, Hstart. reflexivity.
Qed.
End ClientClaims.

(** ** The input builder *)

Section Builder.
Context `{Engine} (env : Env) (config : FhevmConfig.t).

Lemma apply_calls_fields (calls : list AddCall) (b : EncryptedInputBuilderImpl.t) :
  EncryptedInputBuilderImpl.inputs (apply_calls calls b) =
    EncryptedInputBuilderImpl.inputs b ++ map entry_of calls /\
  EncryptedInputBuilderImpl.getInstance (apply_calls calls b) =
    EncryptedInputBuilderImpl.getInstance b /\
  EncryptedInputBuilderImpl.contractAddress (apply_calls calls b) =
    EncryptedInputBuilderImpl.contractAddress b /\
  EncryptedInputBuilderImpl.userAddress (apply_calls calls b) =
    EncryptedInputBuilderImpl.userAddress b.
Proof.
  revert b. induction calls as [| c calls IH]; intros b.
  - simpl. rewrite app_nil_r. repeat split.
  - change (apply_calls (c :: calls) b) with (apply_calls calls (apply_call c b)).
    destruct (IH (apply_call c b)) as (Hin & Hget & Hc & Hu).
    rewrite Hin, Hget, Hc, Hu.
    destruct c; simpl; rewrite <- app_assoc; repeat split.
Qed.

(** The loop of [getEncrypted] calls the add-methods of the engine's
    builder for the entries in the order of the array. *)
Lemma replay_entry_calls (entries : list (string * JsValue)) (inp : input) :
  EncryptedInputBuilderImpl.replay entries inp = engine_adds (entry_calls entries) inp.
Proof.
  revert inp. induction entries as [| [type value] rest IH]; intros inp.
  - reflexivity.
  - simpl. unfold EncryptedInputBuilderImpl.switch.
    repeat (destruct (String.eqb type _);
            [simpl; destruct (engine_add _ value inp); [apply IH | reflexivity] |]).
    apply IH.
Qed.

Lemma entry_calls_entries (calls : list AddCall) :
  entry_calls (map entry_of calls) = map engine_call calls.
Proof.
  induction calls as [| c calls IH]; [reflexivity |].
  destruct c; simpl; rewrite IH; reflexivity.
Qed.

Lemma run_getEncrypted (b : EncryptedInputBuilderImpl.t) (w : World) :
  EncryptedInputBuilderImpl.getInstance b = FhevmClientImpl.ensureInitialized config ->
  run env (EncryptedInputBuilderImpl.getEncrypted b) w =
  match run env (FhevmClientImpl.ensureInitialized config) w with
  | (Fulfilled (Some i), w1) =>
      match engine_createEncryptedInput i (EncryptedInputBuilderImpl.contractAddress b)
              (EncryptedInputBuilderImpl.userAddress b) with
      | Fulfilled inp =>
          match EncryptedInputBuilderImpl.replay (EncryptedInputBuilderImpl.inputs b) inp with
          | Fulfilled inp' =>
              (engine_input_encrypt (engine_calls w1) inp', count_encryption w1)
          | Rejected e => (Rejected e, w1)
          end
      | Rejected e => (Rejected e, w1)
      end
  | (Fulfilled None, w1) => (Rejected (TypeError "Cannot read properties of null"), w1)
  | (Rejected e, w1) => (Rejected e, w1)
  end.
Proof.
  intros Hget. unfold EncryptedInputBuilderImpl.getEncrypted.
  rewrite run_bind, run_await_call, Hget.
  destruct (run env (FhevmClientImpl.ensureInitialized config) w) as [[[i |] | e] w1];
    try reflexivity.
  rewrite run_bind, run_settle.
  destruct (engine_createEncryptedInput i _ _) as [inp | e]; [| reflexivity].
  rewrite run_bind, run_settle.
  destruct (EncryptedInputBuilderImpl.replay _ inp) as [inp' | e]; [| reflexivity].
  simpl. destruct (engine_input_encrypt (engine_calls w1) inp'); reflexivity.
Qed.

(** The outcome of [getEncrypted] is that of the batch done on the engine
    directly, with the calls that the entries stand for. *)
Lemma getEncrypted_batch (b : EncryptedInputBuilderImpl.t) (w : World) :
  EncryptedInputBuilderImpl.getInstance b = FhevmClientImpl.ensureInitialized config ->
  fst (run env (EncryptedInputBuilderImpl.getEncrypted b) w) =
  match run env (FhevmClientImpl.ensureInitialized config) w with
  | (Fulfilled (Some i), w1) =>
      engine_batch (engine_calls w1) i (EncryptedInputBuilderImpl.contractAddress b)
        (EncryptedInputBuilderImpl.userAddress b)
        (entry_calls (EncryptedInputBuilderImpl.inputs b))
  | (Fulfilled None, _) => Rejected (TypeError "Cannot read properties of null")
  | (Rejected e, _) => Rejected e
  end.
Proof.
  intros Hget. rewrite (run_getEncrypted b w Hget). unfold engine_batch.
  destruct (run env (FhevmClientImpl.ensureInitialized config) w) as [[[i |] | e] w1];
    try reflexivity.
  destruct (engine_createEncryptedInput i _ _) as [inp | e]; [| reflexivity].
  rewrite replay_entry_calls.
  destruct (engine_adds _ inp); reflexivity.
Qed.

(** C3 as the code has it: a builder keeps no trace of a call of
    [getEncrypted].  After a first call that gave a result, a second call
    raises no error of its own: with the engine handle that the client
    kept, and with no further fetch or engine construction, it does the
    same batch on the engine again, in the same order, and its outcome is
    what the engine gives for it. *)
Theorem getEncrypted_twice (calls : list AddCall) (c u : string) (w w1 : World)
    (r1 : EncryptedInput) :
  let b := apply_calls calls (createEncryptedInput config c u) in
  run env (EncryptedInputBuilderImpl.getEncrypted b) w = (Fulfilled r1, w1) ->
  exists i, initialized w1 i /\
    let second := run env (EncryptedInputBuilderImpl.getEncrypted b) w1 in
    fst second = engine_batch (engine_calls w1) i c u (map engine_call calls) /\
    fetched (snd second) = fetched w1 /\
    created (snd second) = created w1.
Proof.
  intros b Hfirst.
  destruct (apply_calls_fields calls (createEncryptedInput config c u))
    as (Hin & Hget & Hc & Hu).
  fold b in Hin, Hget, Hc, Hu. simpl in Hin, Hget, Hc, Hu.
  rewrite (run_getEncrypted b w Hget) in Hfirst.
  destruct (run env (FhevmClientImpl.ensureInitialized config) w)
    as [[[i |] | e] w0] eqn:Hinit; try discriminate.
  destruct (run_ensureInitialized_fulfilled env config w w0 (Some i) Hinit)
    as (j & Hj & Hready).
  inversion Hj; subst j.
  assert (Hw1 : w1 = count_encryption w0).
  { destruct (engine_createEncryptedInput i _ _) as [inp | e]; [| discriminate].
    destruct (EncryptedInputBuilderImpl.replay _ inp) as [inp' | e]; [| discriminate].
    inversion Hfirst. reflexivity. }
  assert (Hready1 : initialized w1 i).
  { rewrite Hw1. destruct Hready as [Ha Hb]. split; assumption. }
  exists i. split; [exact Hready1 |].
  intros second. unfold second.
  split.
  - rewrite (getEncrypted_batch b w1 Hget).
    rewrite (run_ensureInitialized_ready env config w1 i Hready1).
    rewrite Hc, Hu, Hin, entry_calls_entries. reflexivity.
  - rewrite (run_getEncrypted b w1 Hget).
    rewrite (run_ensureInitialized_ready env config w1 i Hready1).
    destruct (engine_createEncryptedInput i _ _) as [inp | e]; [| split; reflexivity].
    destruct (EncryptedInputBuilderImpl.replay _ inp) as [inp' | e];
      split; reflexivity.
Qed.
End Builder.

(** C1: [getEncrypted] hands the entries that the append methods recorded
    to the add-method of the engine's builder that corresponds to each, in
    the order of the append calls, and its outcome is that of the batch done
    on the engine with these calls in this order.  With an engine whose
    handles are those of the calls it got, in the order it got them, the
    handles of the result are those of the append calls, position by
    position; for [add32(500)], [add8(10)], [addBool(true)] there are three,
    the first for [add32(500)], the second for [add8(10)], the third for
    [addBool(true)]. *)
Theorem getEncrypted_preserves_order :
  (forall (E : Engine) (env : Env) (config : FhevmConfig.t) (calls : list AddCall)
          (c u : string) (w : World),
      let b := apply_calls calls (createEncryptedInput config c u) in
      EncryptedInputBuilderImpl.inputs b = map entry_of calls /\
      (forall inp,
          EncryptedInputBuilderImpl.replay (EncryptedInputBuilderImpl.inputs b) inp =
          engine_adds (map engine_call calls) inp) /\
      fst (run env (EncryptedInputBuilderImpl.getEncrypted b) w) =
      match run env (FhevmClientImpl.ensureInitialized config) w with
      | (Fulfilled (Some i), w1) =>
          engine_batch (engine_calls w1) i c u (map engine_call calls)
      | (Fulfilled None, _) => Rejected (TypeError "Cannot read properties of null")
      | (Rejected e, _) => Rejected e
      end) /\
  (forall (calls : list AddCall) (c u : string),
      fst (@run recorder gateway_up _
             (EncryptedInputBuilderImpl.getEncrypted
                (apply_calls calls (createEncryptedInput onSepolia c u))) fresh) =
      Fulfilled {| handles := map (fun call => handle_of (engine_call call)) calls;
                   inputProof := "proof#0" |}) /\
  (exists r,
      fst (@run recorder gateway_up _
             (EncryptedInputBuilderImpl.getEncrypted
                (apply_calls threeCalls (createEncryptedInput onSepolia "0xC" "0xU")))
             fresh) = Fulfilled r /\
      length (handles r) = 3%nat /\
      handles r !! 0%nat = Some (handle_of (engine_call (Add32 500))) /\
      handles r !! 1%nat = Some (handle_of (engine_call (Add8 10))) /\
      handles r !! 2%nat = Some (handle_of (engine_call (AddBool true)))).
Proof.
  assert (General : forall (E : Engine) (env : Env) (config : FhevmConfig.t)
            (calls : list AddCall) (c u : string) (w : World),
      let b := apply_calls calls (createEncryptedInput config c u) in
      EncryptedInputBuilderImpl.inputs b = map entry_of calls /\
      (forall inp,
          EncryptedInputBuilderImpl.replay (EncryptedInputBuilderImpl.inputs b) inp =
          engine_adds (map engine_call calls) inp) /\
      fst (run env (EncryptedInputBuilderImpl.getEncrypted b) w) =
      match run env (FhevmClientImpl.ensureInitialized config) w with
      | (Fulfilled (Some i), w1) =>
          engine_batch (engine_calls w1) i c u (map engine_call calls)
      | (Fulfilled None, _) => Rejected (TypeError "Cannot read properties of null")
      | (Rejected e, _) => Rejected e
      end).
  { intros E env config calls c u w b.
    destruct (apply_calls_fields calls (createEncryptedInput config c u))
      as (Hin & Hget & Hc & Hu).
    fold b in Hin, Hget, Hc, Hu. simpl in Hin, Hget, Hc, Hu.
    split; [exact Hin |]. split.
    - intros inp. rewrite replay_entry_calls, Hin, entry_calls_entries. reflexivity.
    - rewrite (getEncrypted_batch env config b w Hget).
      rewrite Hc, Hu, Hin, entry_calls_entries. reflexivity. }
  split; [exact General |]. split.
  - intros calls c u.
    destruct (General recorder gateway_up onSepolia calls c u fresh) as (_ & _ & ->).
    assert (Hadds : forall (l inp : list (EncryptedType * JsValue)),
               @engine_adds recorder l inp = Fulfilled (inp ++ l)).
    { induction l as [| [t v] l IH]; intros inp; simpl.
      - rewrite app_nil_r. reflexivity.
      - rewrite IH, <- app_assoc. reflexivity. }
    change (run gateway_up (FhevmClientImpl.ensureInitialized onSepolia) fresh)
      with (Fulfilled (Some readyInstance), ready).
    unfold engine_batch. simpl. rewrite Hadds. simpl.
    rewrite map_map. reflexivity.
  - eexists. split; [vm_compute; reflexivity |].
    repeat split.
Qed.

(** ** The claims on the reference engine and the gateway stubs *)

Section Examples.
#[local] Existing Instance recorder.

(** C2 does not hold of the code: [encrypt8(-1)] and [encrypt8(256)] on an
    engine that accepts them are fulfilled, and [add8(-1)] appends. *)
Lemma encrypt8_out_of_range_fulfilled :
  fst (run gateway_up (encryptUint onSepolia U8 (-1)) fresh)
    = Fulfilled "euint8(-1)#0" /\
  fst (run gateway_up (encryptUint onSepolia U8 (2 ^ bitwidth U8)) fresh)
    = Fulfilled "euint8(256)#0" /\
  EncryptedInputBuilderImpl.inputs
    (addUint U8 (-1) (createEncryptedInput onSepolia "0xC" "0xU"))
    = [("euint8", JNumber (-1))].
Proof. repeat split. Qed.

Lemma encrypt_hands_value_to_engine_ready :
  initialized ready readyInstance /\
  run gateway_up (encryptUint onSepolia U64 (2 ^ bitwidth U64)) ready =
    (Fulfilled "euint64(18446744073709551616n)#0", count_encryption ready) /\
  run gateway_up (encryptUint onSepolia U16 (-1)) fresh =
    (Fulfilled "euint16(-1)#0", count_encryption ready) /\
  run gateway_down (encryptUint onSepolia U32 (2 ^ bitwidth U32)) fresh =
    (Rejected (Foreign "connection refused"), log_fetch (keyUrl onSepolia) fresh).
Proof.
  split; [split; reflexivity |]. split; [| split].
  - apply (proj1 (proj2 (encrypt_hands_value_to_engine gateway_up onSepolia U64
                           (2 ^ bitwidth U64) ready)) readyInstance).
    split; reflexivity.
  - exact (proj1 (encrypt_hands_value_to_engine gateway_up onSepolia U16 (-1) fresh)).
  - exact (proj1 (encrypt_hands_value_to_engine gateway_down onSepolia U32
                    (2 ^ bitwidth U32) fresh)).
Defined.

(** C3 does not hold of the code: the second [getEncrypted] of a builder
    is fulfilled as the first was. *)
Lemma getEncrypted_second_call_fulfilled :
  let b := apply_calls [Add8 10] (createEncryptedInput onSepolia "0xC" "0xU") in
  let first := run gateway_up (EncryptedInputBuilderImpl.getEncrypted b) fresh in
  let second := run gateway_up (EncryptedInputBuilderImpl.getEncrypted b) (snd first) in
  fst first = Fulfilled {| handles := ["euint8(10)"]; inputProof := "proof#0" |} /\
  fst second = Fulfilled {| handles := ["euint8(10)"]; inputProof := "proof#1" |}.
Proof. split; reflexivity. Qed.

Lemma getEncrypted_twice_threeCalls :
  let b := apply_calls threeCalls (createEncryptedInput onSepolia "0xC" "0xU") in
  let r1 := {| handles := ["euint32(500)"; "euint8(10)"; "ebool(true)"];
               inputProof := "proof#0" |} in
  run gateway_up (EncryptedInputBuilderImpl.getEncrypted b) fresh
    = (Fulfilled r1, count_encryption ready) /\
  exists i, initialized (count_encryption ready) i /\
    let second := run gateway_up (EncryptedInputBuilderImpl.getEncrypted b)
                    (count_encryption ready) in
    fst second = engine_batch (engine_calls (count_encryption ready)) i "0xC" "0xU"
                   (map engine_call threeCalls) /\
    fetched (snd second) = fetched (count_encryption ready) /\
    created (snd second) = created (count_encryption ready).
Proof.
  intros b r1. split; [reflexivity |].
  apply (getEncrypted_twice gateway_up onSepolia threeCalls "0xC" "0xU" fresh
           (count_encryption ready) r1).
  reflexivity.
Defined.

Lemma concurrent_first_calls_fetch_twice_sepolia :
  effective_endpoint onSepolia <> None /\
  fetched (snd (start gateway_up [FhevmClientImpl.encrypt8 onSepolia 1;
                                  FhevmClientImpl.encrypt8 onSepolia 2] fresh))
    = [keyUrl onSepolia; keyUrl onSepolia] /\
  exists more,
    fetched (snd (schedule gateway_up [0; 1; 0; 1; 0; 1; 0; 1]%nat
                    (start gateway_up [FhevmClientImpl.encrypt8 onSepolia 1;
                                       FhevmClientImpl.encrypt8 onSepolia 2] fresh)))
    = [keyUrl onSepolia; keyUrl onSepolia] ++ more.
Proof.
  split; [discriminate |].
  apply (concurrent_first_calls_fetch_twice gateway_up onSepolia
           euint8 euint8 (JNumber 1) (JNumber 2) [0; 1; 0; 1; 0; 1; 0; 1]%nat).
  discriminate.
Defined.



(** C6 does not hold of the code: the gateway reports the request as
    rejected at the first poll, with status 400 and an error body, and
    [awaitDecryption] does not fail; it waits, polls a second time and
    returns the value it then gets. *)
Lemma awaitDecryption_polls_after_rejection :
  let url := decryptUrl onSepolia 7 in
  let res := run gateway_rejecting (FhevmClientImpl.awaitDecryption onSepolia 7) fresh in
  net gateway_rejecting 0 url =
    Fulfilled {| status := 400;
                 json := Fulfilled (JObject [("error", JString "request rejected")]) |} /\
  fst res = Fulfilled (JNumber 42) /\
  fetched (snd res) = [url; url] /\
  slept (snd res) = [2000].
Proof. repeat split. Qed.

Lemma awaitDecryption_swallows_failed_attempts_garbled :
  let url := decryptUrl onSepolia 7 in
  let res := run gateway_garbled (FhevmClientImpl.awaitDecryption onSepolia 7) fresh in
  yields_nothing (net gateway_garbled (length (fetched fresh)) url) /\
  run gateway_garbled (FhevmClientImpl.poll 30 url 7) fresh =
  run gateway_garbled (FhevmClientImpl.poll 29 url 7)
      (log_sleep FhevmClientImpl.delayMs (log_fetch url fresh)) /\
  fst res = Rejected (timeoutError 7) /\
  ((effective_endpoint onSepolia = None /\
    timeoutError 7 = Error "Gateway URL not configured" /\ snd res = fresh) \/
   (timeoutError 7 = timeoutError 7 /\
    fetched (snd res) = fetched fresh ++ replicate 30 url /\
    slept (snd res) = slept fresh ++ replicate 30 2000)).
Proof.
  intros url res.
  assert (Hnothing : yields_nothing (net gateway_garbled (length (fetched fresh)) url)).
  { right. left. exists (Foreign "Unexpected token"). reflexivity. }
  split; [exact Hnothing |]. split.
  - apply (proj1 (awaitDecryption_swallows_failed_attempts gateway_garbled
                    onSepolia 7 fresh) 29%nat).
    exact Hnothing.
  - split; [vm_compute; reflexivity |].
    apply (proj2 (awaitDecryption_swallows_failed_attempts gateway_garbled
                    onSepolia 7 fresh) (timeoutError 7)).
    vm_compute. reflexivity.
Defined.

(** C7 does not hold of the code: the key endpoint answers with status 500
    and a body without [publicKey], and [getPublicKey] is fulfilled, with
    undefined.  Nor is an override that is present always the endpoint:
    with the empty string as override the key is asked of the gateway of
    the network profile. *)
Lemma getPublicKey_fulfilled_on_server_error :
  let res := run gateway_keyless (FhevmClientImpl.getPublicKey onSepolia) fresh in
  (exists r, net gateway_keyless 0 (keyUrl onSepolia) = Fulfilled r /\
             ok r = false /\
             json r = Fulfilled (JObject [("error", JString "internal")])) /\
  fst res = Fulfilled JUndefined /\
  fetched (snd res) = [keyUrl onSepolia] /\
  FhevmConfig.gatewayUrl emptyOverride = Some "" /\
  fetched (snd (run gateway_up (FhevmClientImpl.getPublicKey emptyOverride) fresh))
    = ["https://gateway.sepolia.zama.ai/fhe-key"].
Proof.
  split; [eexists; repeat split |]. repeat split.
Qed.

Lemma getPublicKey_outcome_rejections :
  let first := run gateway_down (FhevmClientImpl.ensureInitialized onSepolia) fresh in
  let key := run gateway_down (FhevmClientImpl.getPublicKey onSepolia) fresh in
  this_instance fresh = None /\
  fst key = Rejected (Foreign "connection refused") /\
  fetched (snd first) = fetched (snd key) /\
  fst first = Rejected (Foreign "connection refused") /\
  created (snd first) = created fresh /\
  net gateway_null 0 (keyUrl onSepolia)
    = Fulfilled {| status := 200; json := Fulfilled JNull |} /\
  exists e, fst (run gateway_null (FhevmClientImpl.getPublicKey onSepolia) fresh)
            = Rejected e.
Proof.
  intros first key. split; [reflexivity |]. split; [reflexivity |].
  destruct (proj2 (proj2 (getPublicKey_outcome gateway_down onSepolia fresh)) eq_refl)
    as [Hfetched Hrejected].
  split; [exact Hfetched |].
  destruct (Hrejected (Foreign "connection refused") eq_refl) as [Hfirst Hcreated].
  split; [exact Hfirst |]. split; [exact Hcreated |]. split; [reflexivity |].
  apply (proj2 (proj1 (proj2 (getPublicKey_outcome gateway_null onSepolia fresh)))).
  right. left. reflexivity.
Defined.

(** C8 does not hold of the code: two requests made within the same
    millisecond, both outstanding, have the same [requestId]. *)
Lemma requestDecryption_same_requestId :
  let first := run same_millisecond (FhevmClientImpl.requestDecryption "0xaa" "0xC") fresh in
  let second :=
    run same_millisecond (FhevmClientImpl.requestDecryption "0xbb" "0xC") (snd first) in
  exists q1 q2,
    fst first = Fulfilled q1 /\ fst second = Fulfilled q2 /\
    ciphertext q1 <> ciphertext q2 /\
    requestId q1 = requestId q2.
Proof.
  do 2 eexists. split; [reflexivity |]. split; [reflexivity |].
  split; [discriminate | reflexivity].
Qed.
End Examples.


(** * Further properties of the code *)

(** ** Polling *)

Section PollingMore.
Context `{Engine} (env : Env) (config : FhevmConfig.t).

Lemma polled_client (n : nat) (url : string) (w : World) :
  this_instance (polled n url w) = this_instance w /\
  this_isInitialized (polled n url w) = this_isInitialized w /\
  created (polled n url w) = created w /\
  clock_reads (polled n url w) = clock_reads w /\
  engine_calls (polled n url w) = engine_calls w.
Proof.
  revert w. induction n as [| n IH]; intros w; simpl.
  - repeat split.
  - destruct (IH (log_sleep FhevmClientImpl.delayMs (log_fetch url w)))
      as (H1 & H2 & H3 & H4 & H5).
    rewrite H1, H2, H3, H4, H5. repeat split.
Qed.

Lemma replicate_snoc {A} (n : nat) (x : A) : replicate n x ++ [x] = replicate (S n) x.
Proof.
  induction n as [| n IH]; simpl; [reflexivity | rewrite IH; reflexivity].
Qed.

(** When a gateway URL is configured, the wait ends at the first poll that
    yields a value, which is the first whose response has a success status
    and a body that parses to something else than null: the result is the
    [value] property of that body, undefined when it has none (an object
    without it, a string, a number, an array), after one fetch per poll and
    one delay of 2000 ms per poll before, each of which yielded nothing. *)
Theorem awaitDecryption_returns_first_value
    (requestId : Z) (j : nat) (r : Response) (data value : JsValue) (w : World) :
  let url := decryptUrl config requestId in
  let res := run env (FhevmClientImpl.awaitDecryption config requestId) w in
  effective_endpoint config <> None ->
  (j < 30)%nat ->
  (forall i, (i < j)%nat -> yields_nothing (net env (length (fetched w) + i) url)) ->
  net env (length (fetched w) + j) url = Fulfilled r ->
  ok r = true ->
  json r = Fulfilled data ->
  get_prop data "value" = Fulfilled value ->
  fst res = Fulfilled value /\
  fetched (snd res) = fetched w ++ replicate (S j) url /\
  slept (snd res) = slept w ++ replicate j 2000.
Proof.
  intros url res Hsome Hj Hbefore Hnet Hok Hjson Hvalue.
  assert (Hat : attempt_result (net env (length (fetched w) + j) url) = Some value).
  { rewrite Hnet. simpl. rewrite Hok, Hjson, Hvalue. reflexivity. }
  unfold res. rewrite (run_awaitDecryption_configured env config requestId w Hsome).
  fold url.
  destruct (run_poll env FhevmClientImpl.maxAttempts url requestId w)
    as [(j' & v & Hj' & Hbefore' & Hat' & Hrun) | [Hnone Hrun]].
  - assert (j' = j) as ->.
    { destruct (Nat.lt_trichotomy j' j) as [Hlt | [Heq | Hgt]]; [| exact Heq |].
      - rewrite (proj1 (nothing_attempt_result _) (Hbefore j' Hlt)) in Hat'. discriminate.
      - rewrite (Hbefore' j Hgt) in Hat. discriminate. }
    rewrite Hat in Hat'. inversion Hat'; subst v.
    rewrite Hrun. simpl. rewrite fetched_polled, slept_polled.
    split; [reflexivity |]. split; [| reflexivity].
    rewrite <- app_assoc, replicate_snoc. reflexivity.
  - unfold FhevmClientImpl.maxAttempts in Hnone.
    rewrite (Hnone j Hj) in Hat. discriminate.
Qed.

(** A poll attempt never throws and makes one fetch.  It comes back without
    a value exactly when the fetch was rejected, the status was not a
    success status, the body could not be parsed, or the parsed body was
    null. *)
Theorem attempt_swallows_errors (url : string) (w : World) :
  exists returned,
    run env (FhevmClientImpl.attempt url) w = (Fulfilled returned, log_fetch url w) /\
    (returned = None <->
     match net env (length (fetched w)) url with
     | Rejected _ => True
     | Fulfilled r =>
         ok r = false \/ (exists e, json r = Rejected e) \/
         json r = Fulfilled JNull \/ json r = Fulfilled JUndefined
     end).
Proof.
  exists (attempt_result (net env (length (fetched w)) url)).
  split; [apply run_attempt |].
  destruct (net env (length (fetched w)) url) as [r | e]; simpl; [| tauto].
  destruct (ok r); [| tauto].
  destruct (json r) as [data | e].
  - destruct data; simpl; split; intros Hx;
      try discriminate; try tauto;
      try (destruct Hx as [Hx | [[e Hx] | [Hx | Hx]]]; discriminate).
  - split; [intros _; right; left; exists e; reflexivity | reflexivity].
Qed.

Lemma world_awaitDecryption (requestId : Z) (w : World) :
  let w' := snd (run env (FhevmClientImpl.awaitDecryption config requestId) w) in
  this_instance w' = this_instance w /\
  this_isInitialized w' = this_isInitialized w /\
  created w' = created w /\
  clock_reads w' = clock_reads w /\
  engine_calls w' = engine_calls w.
Proof.
  intros w'. unfold w'.
  destruct (effective_endpoint config) as [g |] eqn:Hg.
  - rewrite run_awaitDecryption_configured by congruence.
    destruct (run_poll env FhevmClientImpl.maxAttempts (decryptUrl config requestId)
                requestId w)
      as [(j & v & _ & _ & _ & Hrun) | [_ Hrun]]; rewrite Hrun; cbn [snd].
    + destruct (polled_client j (decryptUrl config requestId) w)
        as (H1 & H2 & H3 & H4 & H5).
      split; [exact H1 |]. split; [exact H2 |]. split; [exact H3 |].
      split; [exact H4 | exact H5].
    + apply polled_client.
  - rewrite run_awaitDecryption_unconfigured by exact Hg. repeat split.
Qed.

(** [awaitDecryption] does not initialize the client: it leaves the engine
    handle and the flag as they are, constructs no engine, calls no
    encryption and does not read the clock. *)
Theorem awaitDecryption_leaves_client (requestId : Z) (w : World) :
  let w' := snd (run env (FhevmClientImpl.awaitDecryption config requestId) w) in
  this_instance w' = this_instance w /\
  this_isInitialized w' = this_isInitialized w /\
  created w' = created w /\
  clock_reads w' = clock_reads w /\
  engine_calls w' = engine_calls w.
Proof. exact (world_awaitDecryption requestId w). Qed.

(** A request followed by the wait for its result polls for the reading of
    the clock that the request took as its identifier.  Neither the
    ciphertext nor the contract address of the request has a part in what is
    fetched or in the outcome. *)
Theorem requestThenAwait_ignores_ciphertext (c1 a1 c2 a2 : string) (w : World) :
  run env (requestThenAwait config c1 a1) w =
    run env (FhevmClientImpl.awaitDecryption config (clock env (clock_reads w)))
        (read_clock (read_clock w)) /\
  run env (requestThenAwait config c1 a1) w = run env (requestThenAwait config c2 a2) w.
Proof.
  assert (Hflow : forall c a,
             run env (requestThenAwait config c a) w =
             run env (FhevmClientImpl.awaitDecryption config (clock env (clock_reads w)))
                 (read_clock (read_clock w))).
  { intros c a. unfold requestThenAwait.
    rewrite run_bind, run_await_call. simpl. apply run_await_call. }
  split; [apply Hflow |]. rewrite !Hflow. reflexivity.
Qed.
End PollingMore.

(** ** First use, failure and retry *)

Section InitializationMore.
Context `{Engine} (env : Env) (config : FhevmConfig.t).

Lemma gatewayUrl_effective (g : string) :
  effective_endpoint config = Some g ->
  js_not (FhevmClientImpl.gatewayUrl config) = false /\
  FhevmClientImpl.gatewayUrl config = Some g.
Proof.
  intros Hg.
  destruct (js_not (FhevmClientImpl.gatewayUrl config)) eqn:Hnot.
  - apply gatewayUrl_missing in Hnot. congruence.
  - split; [reflexivity |]. rewrite (gatewayUrl_configured config Hnot). exact Hg.
Qed.

Lemma keyUrl_effective (g : string) :
  effective_endpoint config = Some g -> keyUrl config = g +:+ "/fhe-key".
Proof. intros Hg. unfold keyUrl. rewrite Hg. reflexivity. Qed.

Lemma world_getPublicKey (w : World) :
  snd (run env (FhevmClientImpl.getPublicKey config) w) =
  match effective_endpoint config with
  | Some g => log_fetch (g +:+ "/fhe-key") w
  | None => w
  end.
Proof.
  rewrite run_getPublicKey. destruct (effective_endpoint config); reflexivity.
Qed.

(** What an initialization that failed leaves behind: the world after the
    attempt to get the key, with one engine construction logged when it was
    the construction that failed. *)
Lemma run_ensureInitialized_rejected (w w' : World) (e : JsError) :
  this_instance w = None \/ this_isInitialized w = false ->
  run env (FhevmClientImpl.ensureInitialized config) w = (Rejected e, w') ->
  let w1 := snd (run env (FhevmClientImpl.getPublicKey config) w) in
  w' = w1 \/ exists options, w' = log_create options w1.
Proof.
  intros Hstale Hrun w1. unfold w1.
  rewrite (run_ensureInitialized_first env config w Hstale) in Hrun.
  destruct (run env (FhevmClientImpl.getPublicKey config) w) as [[pk | e1] w2]; simpl in *.
  - destruct (createInstance (FhevmClientImpl.instanceOptions config pk)) as [i | e2];
      [discriminate |].
    right. eexists. inversion Hrun. reflexivity.
  - left. inversion Hrun. reflexivity.
Qed.

Lemma ensureInitialized_engine_calls (w : World) :
  engine_calls (snd (run env (FhevmClientImpl.ensureInitialized config) w)) =
  engine_calls w.
Proof.
  assert (Hfirst : this_instance w = None \/ this_isInitialized w = false ->
            engine_calls (snd (run env (FhevmClientImpl.ensureInitialized config) w)) =
            engine_calls w).
  { intros Hstale. rewrite (run_ensureInitialized_first env config w Hstale).
    pose proof (world_getPublicKey w) as Hw.
    destruct (run env (FhevmClientImpl.getPublicKey config) w) as [[pk | e1] w2];
      simpl in *; subst w2.
    - destruct (createInstance (FhevmClientImpl.instanceOptions config pk));
        destruct (effective_endpoint config); reflexivity.
    - destruct (effective_endpoint config); reflexivity. }
  destruct (this_instance w) as [i |] eqn:Hi; [| apply Hfirst; left; reflexivity].
  destruct (this_isInitialized w) eqn:Hflag; [| apply Hfirst; right; reflexivity].
  rewrite (run_ensureInitialized_ready env config w i) by (split; assumption).
  reflexivity.
Qed.

(** An initialization that fails is not remembered: the client still has no
    engine handle and its flag is as before, and when a gateway URL is
    configured the next initialization fetches the public key again. *)
Theorem failed_initialization_is_retried (w w' : World) (e : JsError) :
  this_instance w = None ->
  run env (FhevmClientImpl.ensureInitialized config) w = (Rejected e, w') ->
  this_instance w' = None /\
  this_isInitialized w' = this_isInitialized w /\
  (effective_endpoint config <> None ->
   fetched (snd (run env (FhevmClientImpl.ensureInitialized config) w')) =
   fetched w' ++ [keyUrl config]).
Proof.
  intros Hnone Hrun.
  pose proof (run_ensureInitialized_rejected w w' e (or_introl Hnone) Hrun) as Hw'.
  cbn zeta in Hw'. rewrite world_getPublicKey in Hw'.
  assert (Hkept : this_instance w' = None /\ this_isInitialized w' = this_isInitialized w).
  { destruct Hw' as [-> | [options ->]]; destruct (effective_endpoint config);
      simpl; split; (exact Hnone || reflexivity). }
  destruct Hkept as [Hnone' Hflag']. split; [exact Hnone' |]. split; [exact Hflag' |].
  intros Hsome.
  destruct (effective_endpoint config) as [g |] eqn:Hg; [| contradiction].
  rewrite (run_ensureInitialized_first env config w' (or_introl Hnone')).
  pose proof (world_getPublicKey w') as Hkey. rewrite Hg in Hkey.
  rewrite (keyUrl_effective g Hg).
  destruct (run env (FhevmClientImpl.getPublicKey config) w') as [[pk | e1] w2];
    simpl in *; subst w2.
  - destruct (createInstance (FhevmClientImpl.instanceOptions config pk)); reflexivity.
  - reflexivity.
Qed.

Lemma run_encryptWith_rejected (t : EncryptedType) (value : JsValue) (w : World)
    (e : JsError) :
  fst (run env (FhevmClientImpl.ensureInitialized config) w) = Rejected e ->
  run env (FhevmClientImpl.encryptWith config t value) w =
  (Rejected e, snd (run env (FhevmClientImpl.ensureInitialized config) w)).
Proof.
  intros He. unfold FhevmClientImpl.encryptWith. rewrite run_bind, run_await_call.
  destruct (run env (FhevmClientImpl.ensureInitialized config) w) as [[r | e1] w1];
    simpl in *; [discriminate | congruence].
Qed.

Lemma run_getEncrypted_rejected (b : EncryptedInputBuilderImpl.t) (w : World)
    (e : JsError) :
  EncryptedInputBuilderImpl.getInstance b = FhevmClientImpl.ensureInitialized config ->
  fst (run env (FhevmClientImpl.ensureInitialized config) w) = Rejected e ->
  run env (EncryptedInputBuilderImpl.getEncrypted b) w =
  (Rejected e, snd (run env (FhevmClientImpl.ensureInitialized config) w)).
Proof.
  intros Hget He. rewrite (run_getEncrypted env config b w Hget).
  destruct (run env (FhevmClientImpl.ensureInitialized config) w) as [[r | e1] w1];
    simpl in *; [discriminate | congruence].
Qed.

(** When the initialization fails, a scalar encryption and a batch
    encryption fail with the error of the initialization, and the engine is
    asked for no encryption. *)
Theorem initialization_failure_surfaces
    (t : EncryptedType) (value : JsValue) (calls : list AddCall) (c u : string)
    (w : World) (e : JsError) :
  fst (run env (FhevmClientImpl.ensureInitialized config) w) = Rejected e ->
  let w' := snd (run env (FhevmClientImpl.ensureInitialized config) w) in
  run env (FhevmClientImpl.encryptWith config t value) w = (Rejected e, w') /\
  run env (EncryptedInputBuilderImpl.getEncrypted
             (apply_calls calls (createEncryptedInput config c u))) w = (Rejected e, w') /\
  engine_calls w' = engine_calls w.
Proof.
  intros He w'. split; [apply run_encryptWith_rejected; exact He |].
  split; [| apply ensureInitialized_engine_calls].
  apply run_getEncrypted_rejected; [| exact He].
  apply (apply_calls_fields calls (createEncryptedInput config c u)).
Qed.

(** With no gateway URL, neither of the client nor of its network, the
    operations of a client that has no engine handle fail with "Gateway URL
    not configured" and do nothing else; so does [awaitDecryption] on every
    client. *)
Theorem no_gateway_no_operation
    (t : EncryptedType) (value : JsValue) (calls : list AddCall) (c u : string)
    (requestId : Z) (w w0 : World) :
  effective_endpoint config = None ->
  this_instance w = None ->
  run env (FhevmClientImpl.encryptWith config t value) w =
    (Rejected (Error "Gateway URL not configured"), w) /\
  run env (EncryptedInputBuilderImpl.getEncrypted
             (apply_calls calls (createEncryptedInput config c u))) w =
    (Rejected (Error "Gateway URL not configured"), w) /\
  run env (FhevmClientImpl.awaitDecryption config requestId) w0 =
    (Rejected (Error "Gateway URL not configured"), w0).
Proof.
  intros Hnone Hinst.
  assert (Hinit : run env (FhevmClientImpl.ensureInitialized config) w =
                  (Rejected (Error "Gateway URL not configured"), w)).
  { rewrite (run_ensureInitialized_first env config w (or_introl Hinst)).
    rewrite run_getPublicKey, Hnone. reflexivity. }
  split.
  - rewrite (run_encryptWith_rejected t value w (Error "Gateway URL not configured"));
      rewrite Hinit; reflexivity.
  - split; [| apply run_awaitDecryption_unconfigured; exact Hnone].
    rewrite (run_getEncrypted_rejected _ w (Error "Gateway URL not configured")).
    + rewrite Hinit. reflexivity.
    + apply (apply_calls_fields calls (createEncryptedInput config c u)).
    + rewrite Hinit. reflexivity.
Qed.

(** The first encryption of a client, when the key endpoint answers with a
    body that can be parsed and the engine accepts its options: one fetch of
    the key, one engine constructed for the chain of the network, with the
    [publicKey] property of the body and with the gateway URL the key came
    from, then the encryption by that engine, which the client keeps. *)
Theorem first_encryption
    (t : EncryptedType) (value : JsValue) (w : World) (g : string) (r : Response)
    (data publicKey : JsValue) (i : instance) :
  let options := FhevmClientImpl.instanceOptions config publicKey in
  this_instance w = None ->
  effective_endpoint config = Some g ->
  net env (length (fetched w)) (g +:+ "/fhe-key") = Fulfilled r ->
  json r = Fulfilled data ->
  get_prop data "publicKey" = Fulfilled publicKey ->
  createInstance options = Fulfilled i ->
  InstanceOptions.gatewayUrl options = Some g /\
  InstanceOptions.chainId options = NetworkConfig.chainId (FhevmConfig.network config) /\
  InstanceOptions.publicKey options = publicKey /\
  run env (FhevmClientImpl.encryptWith config t value) w =
  (engine_encrypt (engine_calls w) i t value,
   count_encryption
     (set_isInitialized true
        (set_instance i (log_create options (log_fetch (g +:+ "/fhe-key") w))))).
Proof.
  intros options Hinst Hg Hnet Hjson Hkey Hcreate.
  split; [apply (gatewayUrl_effective g Hg) |].
  split; [reflexivity |]. split; [reflexivity |].
  unfold FhevmClientImpl.encryptWith. rewrite run_bind, run_await_call.
  rewrite (run_ensureInitialized_first env config w (or_introl Hinst)).
  rewrite run_getPublicKey, Hg, Hnet, Hjson, Hkey. cbn zeta. fold options.
  rewrite Hcreate. simpl.
  destruct (engine_encrypt (engine_calls w) i t value); reflexivity.
Qed.
End InitializationMore.

(** ** More on the input builder *)

Section BuilderMore.
Context `{Engine} (env : Env) (config : FhevmConfig.t).

Lemma engine_adds_app (l1 l2 : list (EncryptedType * JsValue)) (inp : input) :
  engine_adds (l1 ++ l2) inp =
  match engine_adds l1 inp with
  | Fulfilled inp1 => engine_adds l2 inp1
  | Rejected e => Rejected e
  end.
Proof.
  revert inp. induction l1 as [| [t v] l1 IH]; intros inp; simpl; [reflexivity |].
  destruct (engine_add t v inp); [apply IH | reflexivity].
Qed.


(** [getEncrypted] on a client that is initialized, for the builder that a
    sequence of append calls made. *)
Lemma run_getEncrypted_ready (calls : list AddCall) (c u : string) (w : World)
    (i : instance) :
  initialized w i ->
  run env (EncryptedInputBuilderImpl.getEncrypted
             (apply_calls calls (createEncryptedInput config c u))) w =
  match engine_createEncryptedInput i c u with
  | Fulfilled inp =>
      match engine_adds (map engine_call calls) inp with
      | Fulfilled inp' => (engine_input_encrypt (engine_calls w) inp', count_encryption w)
      | Rejected e => (Rejected e, w)
      end
  | Rejected e => (Rejected e, w)
  end.
Proof.
  intros Hready.
  destruct (apply_calls_fields calls (createEncryptedInput config c u))
    as (Hin & Hget & Hc & Hu).
  simpl in Hin, Hget, Hc, Hu.
  rewrite (run_getEncrypted env config _ w Hget).
  rewrite (run_ensureInitialized_ready env config w i Hready).
  rewrite Hc, Hu, Hin.
  destruct (engine_createEncryptedInput i c u) as [inp | e]; [| reflexivity].
  rewrite replay_entry_calls, entry_calls_entries. reflexivity.
Qed.

(** When the engine's builder rejects one of the values, [getEncrypted]
    fails with that error, whatever was appended after that value, and the
    engine is asked for no encryption: the world is as it was. *)
Theorem getEncrypted_stops_at_rejected_add
    (before rest : list AddCall) (bad : AddCall) (c u : string) (w : World)
    (i : instance) (inp inp1 : input) (e : JsError) :
  initialized w i ->
  engine_createEncryptedInput i c u = Fulfilled inp ->
  engine_adds (map engine_call before) inp = Fulfilled inp1 ->
  engine_add (fst (engine_call bad)) (snd (engine_call bad)) inp1 = Rejected e ->
  run env (EncryptedInputBuilderImpl.getEncrypted
             (apply_calls (before ++ bad :: rest) (createEncryptedInput config c u))) w
  = (Rejected e, w).
Proof.
  intros Hready Hcreate Hbefore Hbad.
  rewrite (run_getEncrypted_ready _ c u w i Hready), Hcreate.
  rewrite map_app, engine_adds_app, Hbefore. simpl.
  destruct (engine_call bad) as [t v]. simpl in Hbad. rewrite Hbad. reflexivity.
Qed.

End BuilderMore.

(** ** Sequences of operations *)

Section Sequences.
Context `{Engine} (env : Env) (config : FhevmConfig.t).

Lemma Forall_replicate_decryptUrl (n : nat) (requestId : Z) :
  Forall (fun url => exists id, url = decryptUrl config id)
         (replicate n (decryptUrl config requestId)).
Proof.
  induction n as [| n IH]; simpl; constructor; [exists requestId; reflexivity | exact IH].
Qed.

Lemma after_ready (o : Operation) (w : World) (i : instance) :
  initialized w i ->
  initialized (after env config o w) i /\
  created (after env config o w) = created w /\
  exists more, fetched (after env config o w) = fetched w ++ more /\
               Forall (fun url => exists id, url = decryptUrl config id) more.
Proof.
  intros Hready. destruct o as [t v | c u calls | ct a | requestId]; unfold after.
  - rewrite (run_encryptWith_ready env config t v w i Hready). simpl.
    split; [destruct Hready; split; assumption |]. split; [reflexivity |].
    exists []. split; [symmetry; apply app_nil_r | constructor].
  - rewrite (run_getEncrypted_ready env config calls c u w i Hready).
    assert (Hsame : forall w', w' = w \/ w' = count_encryption w ->
              initialized w' i /\ created w' = created w /\
              exists more, fetched w' = fetched w ++ more /\
                Forall (fun url => exists id, url = decryptUrl config id) more).
    { intros w' [-> | ->]; (split; [destruct Hready; split; assumption |]);
        (split; [reflexivity |]); exists [];
        (split; [symmetry; apply app_nil_r | constructor]). }
    destruct (engine_createEncryptedInput i c u) as [inp | e];
      [| apply Hsame; left; reflexivity].
    destruct (engine_adds (map engine_call calls) inp);
      apply Hsame; [right | left]; reflexivity.
  - simpl. split; [destruct Hready; split; assumption |]. split; [reflexivity |].
    exists []. split; [symmetry; apply app_nil_r | constructor].
  - destruct (world_awaitDecryption env config requestId w)
      as (H1 & H2 & H3 & _ & _).
    split; [destruct Hready as [Ha Hb]; split; congruence |].
    split; [exact H3 |].
    destruct (effective_endpoint config) as [g |] eqn:Hg.
    + rewrite run_awaitDecryption_configured by congruence.
      destruct (run_poll env FhevmClientImpl.maxAttempts (decryptUrl config requestId)
                  requestId w)
        as [(j & v & _ & _ & _ & Hrun) | [_ Hrun]]; rewrite Hrun; cbn [snd].
      * exists (replicate (S j) (decryptUrl config requestId)). split.
        -- change (fetched (log_fetch ?u ?x)) with (fetched x ++ [u]).
           rewrite fetched_polled, <- app_assoc, replicate_snoc. reflexivity.
        -- apply Forall_replicate_decryptUrl.
      * exists (replicate FhevmClientImpl.maxAttempts (decryptUrl config requestId)).
        split; [apply fetched_polled | apply Forall_replicate_decryptUrl].
    + rewrite run_awaitDecryption_unconfigured by exact Hg.
      exists []. split; [symmetry; apply app_nil_r | constructor].
Qed.

(** Once a client is initialized it stays so through every sequence of
    operations made one after the other: the engine handle is the same at
    the end, no further engine is constructed, and what is fetched are the
    polls for decryption results only, the public key never again. *)
Theorem initialized_client_stays_initialized
    (ops : list Operation) (w : World) (i : instance) :
  initialized w i ->
  initialized (after_all env config ops w) i /\
  created (after_all env config ops w) = created w /\
  exists more, fetched (after_all env config ops w) = fetched w ++ more /\
               Forall (fun url => exists id, url = decryptUrl config id) more.
Proof.
  revert w. induction ops as [| o ops IH]; intros w Hready.
  - split; [exact Hready |]. split; [reflexivity |].
    exists []. split; [symmetry; apply app_nil_r | constructor].
  - destruct (after_ready o w i Hready) as (Hready1 & Hcreated1 & more1 & Hf1 & Hall1).
    destruct (IH (after env config o w) Hready1) as (Hready2 & Hcreated2 & more2 & Hf2 & Hall2).
    change (after_all env config (o :: ops) w)
      with (after_all env config ops (after env config o w)).
    split; [exact Hready2 |]. split; [congruence |].
    exists (more1 ++ more2). split.
    + rewrite Hf2, Hf1, app_assoc. reflexivity.
    + apply Forall_app. split; assumption.
Qed.

Lemma synced_fields (w w' : World) :
  this_instance w' = this_instance w ->
  this_isInitialized w' = this_isInitialized w ->
  synced w -> synced w'.
Proof. unfold synced. intros -> ->. tauto. Qed.

Lemma synced_ensureInitialized (w : World) :
  synced w -> synced (snd (run env (FhevmClientImpl.ensureInitialized config) w)).
Proof.
  intros Hs.
  destruct (this_instance w) as [i |] eqn:Hi.
  - assert (Hflag : this_isInitialized w = true).
    { apply Hs. rewrite Hi. discriminate. }
    rewrite (run_ensureInitialized_ready env config w i) by (split; assumption).
    exact Hs.
  - rewrite (run_ensureInitialized_first env config w (or_introl Hi)).
    pose proof (world_getPublicKey env config w) as Hw.
    destruct (run env (FhevmClientImpl.getPublicKey config) w) as [[pk | e] w1];
      simpl in *; subst w1.
    + destruct (createInstance (FhevmClientImpl.instanceOptions config pk)) as [j | e];
        simpl.
      * unfold synced. simpl. split; [discriminate | reflexivity].
      * apply (synced_fields w); [| | exact Hs];
          destruct (effective_endpoint config); reflexivity.
    + apply (synced_fields w); [| | exact Hs];
        destruct (effective_endpoint config); reflexivity.
Qed.

Lemma after_synced (o : Operation) (w : World) :
  synced w -> synced (after env config o w).
Proof.
  intros Hs. pose proof (synced_ensureInitialized w Hs) as Hs1.
  destruct o as [t v | c u calls | ct a | requestId]; unfold after.
  - unfold FhevmClientImpl.encryptWith. rewrite run_bind, run_await_call.
    destruct (run env (FhevmClientImpl.ensureInitialized config) w) as [[[i |] | e] w1];
      simpl in *; try exact Hs1.
    destruct (engine_encrypt (engine_calls w1) i t v); exact Hs1.
  - rewrite (run_getEncrypted env config _ w)
      by apply (apply_calls_fields calls (createEncryptedInput config c u)).
    destruct (run env (FhevmClientImpl.ensureInitialized config) w) as [[[i |] | e] w1];
      simpl in *; try exact Hs1.
    destruct (engine_createEncryptedInput i _ _) as [inp | e]; [| exact Hs1].
    destruct (EncryptedInputBuilderImpl.replay _ inp); exact Hs1.
  - exact Hs.
  - destruct (world_awaitDecryption env config requestId w)
      as (H1 & H2 & _).
    apply (synced_fields w); assumption.
Qed.

(** The flag [isInitialized] and the engine handle go together after every
    sequence of operations made one after the other on a new client: the
    flag is set exactly when there is a handle. *)
Theorem flag_follows_handle (ops : list Operation) :
  synced (after_all env config ops fresh).
Proof.
  assert (Hall : forall w, synced w -> synced (after_all env config ops w)).
  { induction ops as [| o ops IH]; intros w Hs; [exact Hs |].
    apply (IH (after env config o w)). apply after_synced. exact Hs. }
  apply Hall. unfold synced. simpl. split; [discriminate | congruence].
Qed.
End Sequences.

(** ** Batches of scalar encryptions *)

Section Batches.
Context `{Engine} (env : Env) (config : FhevmConfig.t).

Lemma callback_supported (type : string) (value : JsValue) :
  supported type = true ->
  exists t, batchEncrypt_callback config (type, value) =
            FhevmClientImpl.encryptWith config t value.
Proof.
  unfold supported, batchEncrypt_callback. simpl.
  repeat (destruct (String.eqb type _); [intros _; eexists; reflexivity |]).
  discriminate.
Qed.

Lemma callback_unsupported (type : string) (value : JsValue) :
  supported type = false ->
  batchEncrypt_callback config (type, value) = Throw (Error ("Unsupported type: " +:+ type)).
Proof.
  unfold supported, batchEncrypt_callback. simpl.
  repeat (destruct (String.eqb type _); [discriminate |]).
  reflexivity.
Qed.

Lemma start_cons {A} (p : Prog A) (ps : list (Prog A)) (w : World) :
  start env (p :: ps) w =
  (fst (advance env p w) :: fst (start env ps (snd (advance env p w))),
   snd (start env ps (snd (advance env p w)))).
Proof.
  simpl. destruct (advance env p w) as [p' w']. simpl.
  destruct (start env ps w') as [ps' w'']. reflexivity.
Qed.

(** The first turn of a scalar encryption on a client that is initialized:
    nothing changes, and what is left to do is quiet. *)
Lemma advance_encryptWith_ready (t : EncryptedType) (value : JsValue) (w : World)
    (i : instance) :
  initialized w i ->
  snd (advance env (FhevmClientImpl.encryptWith config t value) w) = w /\
  quiet (fst (advance env (FhevmClientImpl.encryptWith config t value) w)).
Proof.
  intros [Hi Hflag].
  unfold FhevmClientImpl.encryptWith, await_call, FhevmClientImpl.ensureInitialized,
    FhevmClientImpl.notInitialized.
  simpl. rewrite Hi. simpl. rewrite Hflag. simpl. rewrite Hi. simpl.
  split; [reflexivity |]. intros [x | e]; exact I.
Qed.

Lemma advance_quiet {A} (p : Prog A) (w : World) :
  quiet p ->
  quiet (fst (advance env p w)) /\
  fetched (snd (advance env p w)) = fetched w /\
  created (snd (advance env p w)) = created w.
Proof.
  revert w. induction p as [a | e | X op k IH | X op k IH]; intros w Hq; simpl.
  - repeat split.
  - repeat split.
  - simpl in Hq.
    destruct op; simpl;
      match goal with
      | |- context [advance env (k ?x) ?w'] => apply (IH x w' (Hq x))
      end.
  - simpl in Hq. destruct Hq as [Hsilent Hq].
    destruct op; simpl in *; try discriminate;
      (split; [apply Hq | split; reflexivity]).
Qed.

Lemma turn_quiet {A} (i : nat) (st : list (Prog A) * World) :
  Forall quiet (fst st) ->
  Forall quiet (fst (turn env i st)) /\
  fetched (snd (turn env i st)) = fetched (snd st) /\
  created (snd (turn env i st)) = created (snd st).
Proof.
  intros Hall. unfold turn. destruct (fst st !! i) as [p |] eqn:Hp.
  - pose proof (Forall_lookup_1 _ _ _ _ Hall Hp) as Hq.
    destruct (advance_quiet p (snd st) Hq) as (Hq' & Hf & Hc).
    destruct (advance env p (snd st)) as [p' w']. simpl in *.
    split; [apply Forall_insert; assumption |]. split; assumption.
  - split; [exact Hall |]. split; reflexivity.
Qed.

Lemma schedule_quiet {A} (order : list nat) (st : list (Prog A) * World) :
  Forall quiet (fst st) ->
  fetched (snd (schedule env order st)) = fetched (snd st) /\
  created (snd (schedule env order st)) = created (snd st).
Proof.
  revert st. induction order as [| i order IH]; intros st Hall.
  - split; reflexivity.
  - destruct (turn_quiet i st Hall) as (Hall' & Hf & Hc).
    destruct (IH (turn env i st) Hall') as [Hf' Hc'].
    unfold schedule in *. simpl. split; congruence.
Qed.

Lemma start_batch_ready (values : list (string * JsValue)) (w : World) (i : instance) :
  initialized w i ->
  Forall quiet (fst (start env (batchEncrypt_promises config values) w)) /\
  snd (start env (batchEncrypt_promises config values) w) = w.
Proof.
  intros Hready. induction values as [| [type value] values [IHq IHw]].
  - split; [constructor | reflexivity].
  - unfold batchEncrypt_promises in *. rewrite map_cons, start_cons.
    assert (Hfirst : snd (advance env (batchEncrypt_callback config (type, value)) w) = w /\
                     quiet (fst (advance env (batchEncrypt_callback config (type, value)) w))).
    { destruct (supported type) eqn:Hs.
      - destruct (callback_supported type value Hs) as [t ->].
        apply (advance_encryptWith_ready t value w i Hready).
      - rewrite (callback_unsupported type value Hs). split; [reflexivity | exact I]. }
    destruct Hfirst as [Hw Hq]. rewrite Hw. simpl.
    split; [constructor; assumption | exact IHw].
Qed.

(** On a client that is initialized, [batchEncrypt] starts no fetch and
    constructs no engine, in whatever order its calls go on. *)
Theorem batchEncrypt_on_initialized_client
    (values : list (string * JsValue)) (order : list nat) (w : World) (i : instance) :
  initialized w i ->
  let st := schedule env order (start env (batchEncrypt_promises config values) w) in
  fetched (snd st) = fetched w /\ created (snd st) = created w.
Proof.
  intros Hready st. unfold st.
  destruct (start_batch_ready values w i Hready) as [Hq Hw].
  destruct (schedule_quiet order _ Hq) as [Hf Hc].
  rewrite Hf, Hc, Hw. split; reflexivity.
Qed.

(** On a client that has no engine handle yet, [batchEncrypt] has started
    one fetch of the public key for each value of a supported type by the
    time it returns its promise, before any of them is answered; a value of
    another type makes its call fail with "Unsupported type" and starts
    nothing. *)
Theorem batchEncrypt_on_new_client (values : list (string * JsValue)) (w : World) :
  this_instance w = None ->
  effective_endpoint config <> None ->
  fetched (snd (start env (batchEncrypt_promises config values) w)) =
    fetched w ++
    replicate (length (List.filter (fun entry => supported (fst entry)) values))
              (keyUrl config) /\
  forall type value w0,
    supported type = false ->
    run env (batchEncrypt_callback config (type, value)) w0 =
    (Rejected (Error ("Unsupported type: " +:+ type)), w0).
Proof.
  intros Hnone Hsome. split.
  - revert w Hnone. induction values as [| [type value] values IH]; intros w Hnone.
    + simpl. rewrite app_nil_r. reflexivity.
    + unfold batchEncrypt_promises in *. rewrite map_cons, start_cons. cbn [snd].
      simpl List.filter. destruct (supported type) eqn:Hs.
      * destruct (callback_supported type value Hs) as [t ->].
        rewrite (advance_encryptWith_first env config t value w Hsome Hnone).
        rewrite IH by exact Hnone. simpl. rewrite <- app_assoc. reflexivity.
      * rewrite (callback_unsupported type value Hs). simpl advance. cbn [snd].
        apply IH. exact Hnone.
  - intros type value w0 Hs. rewrite (callback_unsupported type value Hs). reflexivity.
Qed.
End Batches.

(** ** More on the network presets *)

(** Every preset can be used as it is: a client of a preset with no
    override of its own has the gateway URL of the preset in effect, so that
    none of its operations fails for want of a gateway URL.  The chain
    identifier tells the presets apart. *)
Theorem presets_are_usable
    (name1 name2 : string) (n1 n2 : NetworkConfig.t) (p : Provider) :
  NETWORKS !! name1 = Some n1 ->
  NETWORKS !! name2 = Some n2 ->
  effective_endpoint (FhevmConfig.mk n1 p None None None) = NetworkConfig.gatewayUrl n1 /\
  effective_endpoint (FhevmConfig.mk n1 p None None None) <> None /\
  (NetworkConfig.chainId n1 = NetworkConfig.chainId n2 -> name1 = name2).
Proof.
  intros H1 H2.
  destruct (NETWORKS_own name1 n1 H1) as [[-> ->] | [[-> ->] | [-> ->]]];
    (split; [reflexivity |]); (split; [discriminate |]);
    destruct (NETWORKS_own name2 n2 H2) as [[-> ->] | [[-> ->] | [-> ->]]];
    intros Hid; try reflexivity; discriminate.
Qed.

(** ** The formatting helpers *)

(** A value that was formatted already is left as it is; the result always
    starts with "0x", and it is the value itself or the value after "0x". *)
Theorem formatEncryptedValue_idempotent (encrypted : string) :
  String.prefix "0x" (formatEncryptedValue encrypted) = true /\
  formatEncryptedValue (formatEncryptedValue encrypted) = formatEncryptedValue encrypted /\
  (formatEncryptedValue encrypted = encrypted \/
   formatEncryptedValue encrypted = "0x" +:+ encrypted).
Proof.
  assert (Hpre : String.prefix "0x" (formatEncryptedValue encrypted) = true).
  { unfold formatEncryptedValue.
    destruct (String.prefix "0x" encrypted) eqn:Hp; simpl; [exact Hp |].
    change ("" +:+ encrypted) with encrypted. destruct encrypted; reflexivity. }
  split; [exact Hpre |]. split.
  - unfold formatEncryptedValue at 1. rewrite Hpre. reflexivity.
  - unfold formatEncryptedValue.
    destruct (String.prefix "0x" encrypted); simpl; [left | right]; reflexivity.
Qed.

Lemma string_app_cons (c : Ascii.ascii) (s t : string) :
  String c s +:+ t = String c (s +:+ t).
Proof. reflexivity. Qed.

Lemma string_app_length (s t : string) :
  String.length (s +:+ t) = (String.length s + String.length t)%nat.
Proof.
  induction s as [| c s IH]; [reflexivity |].
  rewrite string_app_cons. simpl. rewrite IH. reflexivity.
Qed.

Lemma string_app_assoc (s t u : string) : (s +:+ t) +:+ u = s +:+ t +:+ u.
Proof.
  induction s as [| c s IH]; [reflexivity |].
  rewrite !string_app_cons, IH. reflexivity.
Qed.

Lemma substring_whole (s : string) : String.substring 0 (String.length s) s = s.
Proof. induction s as [| c s IH]; simpl; [reflexivity | rewrite IH; reflexivity]. Qed.

Lemma substring_length (s : string) (a m : nat) :
  String.length (String.substring a m s) = Nat.min m (String.length s - a).
Proof.
  revert a m. induction s as [| c s IH]; intros a m.
  - destruct a, m; reflexivity.
  - destruct a as [| a].
    + destruct m as [| m]; [reflexivity |]. simpl. rewrite IH.
      rewrite Nat.sub_0_r. reflexivity.
    + simpl. apply IH.
Qed.

Lemma substring_split (s : string) (a : nat) :
  String.substring 0 a s +:+ String.substring a (String.length s - a) s = s.
Proof.
  revert a. induction s as [| c s IH]; intros a.
  - destruct a; reflexivity.
  - destruct a as [| a].
    + simpl String.length. rewrite Nat.sub_0_r.
      change (String.substring 0 0 (String c s)) with "".
      change ("" +:+ ?x) with x.
      apply (substring_whole (String c s)).
    + simpl String.length. simpl Nat.sub.
      change (String.substring 0 (S a) (String c s)) with (String c (String.substring 0 a s)).
      change (String.substring (S a) (String.length s - a) (String c s))
        with (String.substring a (String.length s - a) s).
      rewrite string_app_cons, IH. reflexivity.
Qed.

Lemma substring_of_prefix (s : string) (a b : nat) :
  (a <= b)%nat ->
  String.substring 0 a (String.substring 0 b s) = String.substring 0 a s.
Proof.
  revert a b. induction s as [| c s IH]; intros a b Hab.
  - destruct a, b; reflexivity.
  - destruct a as [| a]; [destruct b; reflexivity |].
    destruct b as [| b]; [lia |].
    simpl. rewrite IH by lia. reflexivity.
Qed.

Lemma slice_head (s : string) :
  slice s 0 (Some 6) = String.substring 0 (Nat.min 6 (String.length s)) s.
Proof.
  unfold slice, slice_index. simpl Z.ltb. cbv iota.
  change (Z.to_nat 0) with 0%nat. change (Z.to_nat 6) with 6%nat.
  rewrite Nat.min_0_l, Nat.sub_0_r. reflexivity.
Qed.

Lemma slice_tail (s : string) :
  slice s (-4) None =
  String.substring (String.length s - 4) (String.length s - (String.length s - 4)) s.
Proof.
  unfold slice, slice_index. simpl Z.ltb. cbv iota.
  replace (Z.to_nat (Z.max (Z.of_nat (String.length s) + -4) 0))
    with (String.length s - 4)%nat by lia.
  reflexivity.
Qed.

Section DisplayProperties.
Variable cents : Decrypted -> string.

(** The display of an address keeps at most the first six and the last
    four characters of the text of the value, with three dots in between.
    A text of ten characters or more is cut to thirteen, its head of six
    and its tail of four; a text of four characters or less is shown twice,
    before the dots and after them. *)
Theorem formatDecryptedValue_address (value : Decrypted) :
  let addr := js_String value in
  let n := String.length addr in
  let shown := formatDecryptedValue cents value (Some "address") in
  String.length shown = (Nat.min 6 n + 3 + Nat.min 4 n)%nat /\
  ((10 <= n)%nat ->
   exists head middle tail,
     addr = head +:+ middle +:+ tail /\
     String.length head = 6%nat /\ String.length tail = 4%nat /\
     shown = head +:+ "..." +:+ tail) /\
  ((n <= 4)%nat -> shown = addr +:+ "..." +:+ addr).
Proof.
  intros addr n shown.
  assert (Hshown : shown = slice addr 0 (Some 6) +:+ "..." +:+ slice addr (-4) None)
    by reflexivity.
  rewrite slice_head, slice_tail in Hshown. fold n in Hshown.
  split; [| split].
  - rewrite Hshown, !string_app_length, !substring_length. fold n. simpl String.length. lia.
  - intros Hn.
    set (front := String.substring 0 (n - 4) addr).
    assert (Hfront : String.length front = (n - 4)%nat).
    { unfold front. rewrite substring_length. fold n. lia. }
    exists (String.substring 0 6 addr), (String.substring 6 (n - 10) front),
           (String.substring (n - 4) 4 addr).
    split; [| split; [| split]].
    + pose proof (substring_split addr (n - 4)) as Hs.
      change (String.length addr) with n in Hs.
      replace (n - (n - 4))%nat with 4%nat in Hs by lia. fold front in Hs.
      pose proof (substring_split front 6) as Hf.
      rewrite Hfront in Hf. replace (n - 4 - 6)%nat with (n - 10)%nat in Hf by lia.
      unfold front in Hf at 1. rewrite substring_of_prefix in Hf by lia.
      rewrite <- string_app_assoc, Hf. symmetry. exact Hs.
    + rewrite substring_length. fold n. lia.
    + rewrite substring_length. fold n. lia.
    + rewrite Hshown.
      replace (Nat.min 6 n) with 6%nat by lia.
      replace (n - (n - 4))%nat with 4%nat by lia. reflexivity.
  - intros Hn. rewrite Hshown.
    replace (Nat.min 6 n) with n by lia.
    replace (n - 4)%nat with 0%nat by lia. rewrite Nat.sub_0_r.
    unfold n. rewrite substring_whole. reflexivity.
Qed.
End DisplayProperties.

(** ** The further properties on the reference engine and the gateway stubs *)

Section MoreExamples.
#[local] Existing Instance recorder.

Lemma awaitDecryption_returns_first_value_third_poll :
  let url := decryptUrl onSepolia 7 in
  let res := run gateway_third_poll (FhevmClientImpl.awaitDecryption onSepolia 7) fresh in
  fst res = Fulfilled (JNumber 42) /\
  fetched (snd res) = [url; url; url] /\
  slept (snd res) = [2000; 2000].
Proof.
  apply (awaitDecryption_returns_first_value gateway_third_poll onSepolia 7 2
           {| status := 200; json := Fulfilled (JObject [("value", JNumber 42)]) |}
           (JObject [("value", JNumber 42)]) (JNumber 42) fresh).
  - discriminate.
  - lia.
  - intros [| [| i]] Hi; [exact I | left; reflexivity | lia].
  - reflexivity.
  - reflexivity.
  - reflexivity.
  - reflexivity.
Defined.

Lemma failed_initialization_is_retried_down :
  let w' := log_fetch (keyUrl onSepolia) fresh in
  this_instance fresh = None /\
  run gateway_down (FhevmClientImpl.ensureInitialized onSepolia) fresh
    = (Rejected (Foreign "connection refused"), w') /\
  this_instance w' = None /\
  this_isInitialized w' = this_isInitialized fresh /\
  (effective_endpoint onSepolia <> None ->
   fetched (snd (run gateway_down (FhevmClientImpl.ensureInitialized onSepolia) w')) =
   fetched w' ++ [keyUrl onSepolia]).
Proof.
  intros w'. split; [reflexivity |]. split; [reflexivity |].
  apply (failed_initialization_is_retried gateway_down onSepolia fresh w'
           (Foreign "connection refused")); reflexivity.
Defined.

Lemma initialization_failure_surfaces_down :
  let w' := snd (run gateway_down (FhevmClientImpl.ensureInitialized onSepolia) fresh) in
  fst (run gateway_down (FhevmClientImpl.ensureInitialized onSepolia) fresh)
    = Rejected (Foreign "connection refused") /\
  run gateway_down (FhevmClientImpl.encryptWith onSepolia euint32 (JNumber 500)) fresh
    = (Rejected (Foreign "connection refused"), w') /\
  run gateway_down (EncryptedInputBuilderImpl.getEncrypted
                      (apply_calls threeCalls (createEncryptedInput onSepolia "0xC" "0xU")))
      fresh = (Rejected (Foreign "connection refused"), w') /\
  engine_calls w' = engine_calls fresh.
Proof.
  intros w'. split; [reflexivity |].
  apply (initialization_failure_surfaces gateway_down onSepolia euint32 (JNumber 500)
           threeCalls "0xC" "0xU" fresh (Foreign "connection refused")).
  reflexivity.
Defined.

Lemma no_gateway_no_operation_offGrid :
  effective_endpoint offGrid = None /\
  this_instance fresh = None /\
  run gateway_up (FhevmClientImpl.encryptWith offGrid euint8 (JNumber 1)) fresh =
    (Rejected (Error "Gateway URL not configured"), fresh) /\
  run gateway_up (EncryptedInputBuilderImpl.getEncrypted
                    (apply_calls threeCalls (createEncryptedInput offGrid "0xC" "0xU")))
      fresh = (Rejected (Error "Gateway URL not configured"), fresh) /\
  run gateway_up (FhevmClientImpl.awaitDecryption offGrid 7) ready =
    (Rejected (Error "Gateway URL not configured"), ready).
Proof.
  split; [reflexivity |]. split; [reflexivity |].
  apply (no_gateway_no_operation gateway_up offGrid euint8 (JNumber 1) threeCalls
           "0xC" "0xU" 7 fresh ready); reflexivity.
Defined.

Lemma first_encryption_sepolia :
  let options := FhevmClientImpl.instanceOptions onSepolia (JString "pk") in
  this_instance fresh = None /\
  effective_endpoint onSepolia = Some "https://gateway.sepolia.zama.ai" /\
  InstanceOptions.gatewayUrl options = Some "https://gateway.sepolia.zama.ai" /\
  InstanceOptions.chainId options = 11155111 /\
  InstanceOptions.publicKey options = JString "pk" /\
  run gateway_up (FhevmClientImpl.encryptWith onSepolia euint32 (JNumber 500)) fresh =
  (Fulfilled "euint32(500)#0", count_encryption ready).
Proof.
  intros options. split; [reflexivity |]. split; [reflexivity |].
  apply (first_encryption (H := recorder) gateway_up onSepolia euint32 (JNumber 500) fresh
           "https://gateway.sepolia.zama.ai"
           {| status := 200;
              json := Fulfilled (JObject [("publicKey", JString "pk");
                                          ("value", JNumber 42)]) |}
           (JObject [("publicKey", JString "pk"); ("value", JNumber 42)])
           (JString "pk") readyInstance); reflexivity.
Defined.


Lemma initialized_client_stays_initialized_ready :
  let ops := [Encrypt euint8 (JNumber 1); AwaitDecryption 7;
              GetEncrypted "0xC" "0xU" threeCalls; RequestDecryption "0xaa" "0xC";
              Encrypt eaddress (JString "0xC")] in
  initialized ready readyInstance /\
  initialized (after_all gateway_up onSepolia ops ready) readyInstance /\
  created (after_all gateway_up onSepolia ops ready) = created ready /\
  exists more,
    fetched (after_all gateway_up onSepolia ops ready) = fetched ready ++ more /\
    Forall (fun url => exists id, url = decryptUrl onSepolia id) more.
Proof.
  intros ops. split; [split; reflexivity |].
  apply (initialized_client_stays_initialized gateway_up onSepolia ops ready readyInstance).
  split; reflexivity.
Defined.

Lemma batchEncrypt_on_initialized_client_ready :
  let values := [("euint32", JNumber 500); ("euint8", JNumber 10); ("uint7", JNumber 1)] in
  let st := schedule gateway_up [2; 0; 1; 1; 0; 2]%nat
              (start gateway_up (batchEncrypt_promises onSepolia values) ready) in
  initialized ready readyInstance /\
  fetched (snd st) = fetched ready /\ created (snd st) = created ready.
Proof.
  intros values st. split; [split; reflexivity |].
  apply (batchEncrypt_on_initialized_client gateway_up onSepolia values
           [2; 0; 1; 1; 0; 2]%nat ready readyInstance).
  split; reflexivity.
Defined.

Lemma batchEncrypt_on_new_client_sepolia :
  let values := [("euint32", JNumber 500); ("uint7", JNumber 1); ("euint8", JNumber 10)] in
  this_instance fresh = None /\
  effective_endpoint onSepolia <> None /\
  fetched (snd (start gateway_up (batchEncrypt_promises onSepolia values) fresh)) =
    [keyUrl onSepolia; keyUrl onSepolia] /\
  supported "uint7" = false /\
  run gateway_up (batchEncrypt_callback onSepolia ("uint7", JNumber 1)) fresh =
    (Rejected (Error "Unsupported type: uint7"), fresh).
Proof.
  intros values. split; [reflexivity |]. split; [discriminate |].
  pose proof (batchEncrypt_on_new_client gateway_up onSepolia values fresh
                eq_refl ltac:(discriminate)) as [Hfetched Hunsupported].
  split; [exact Hfetched |]. split; [reflexivity |].
  apply (Hunsupported "uint7" (JNumber 1) fresh). reflexivity.
Defined.

Lemma presets_are_usable_sepolia_devnet :
  NETWORKS !! "sepolia" = Some sepolia /\
  NETWORKS !! "zamaDevnet" = Some zamaDevnet /\
  effective_endpoint (FhevmConfig.mk sepolia BrowserProvider None None None)
    = Some "https://gateway.sepolia.zama.ai" /\
  effective_endpoint (FhevmConfig.mk sepolia BrowserProvider None None None) <> None /\
  (NetworkConfig.chainId sepolia = NetworkConfig.chainId zamaDevnet ->
   "sepolia" = "zamaDevnet").
Proof.
  split; [reflexivity |]. split; [reflexivity |].
  apply (presets_are_usable "sepolia" "zamaDevnet" sepolia zamaDevnet BrowserProvider);
    reflexivity.
Defined.

Lemma formatDecryptedValue_address_acl :
  let value := DString "0x339EcE85B9E11a3A3AA557582784a15d7F82AAf2" in
  let shown := formatDecryptedValue (fun _ => "") value (Some "address") in
  shown = "0x339E...AAf2" /\
  String.length shown = 13%nat /\
  (10 <= String.length (js_String value))%nat /\
  exists head middle tail,
    js_String value = head +:+ middle +:+ tail /\
    String.length head = 6%nat /\ String.length tail = 4%nat /\
    shown = head +:+ "..." +:+ tail.
Proof.
  intros value shown. split; [reflexivity |].
  split; [exact (proj1 (formatDecryptedValue_address (fun _ => "") value)) |].
  assert (Hlong : (10 <= String.length (js_String value))%nat) by (vm_compute; lia).
  split; [exact Hlong |].
  exact (proj1 (proj2 (formatDecryptedValue_address (fun _ => "") value)) Hlong).
Defined.
End MoreExamples.

Section StrictExamples.
#[local] Existing Instance strict_recorder.

Lemma getEncrypted_stops_at_rejected_add_strict :
  let w := snd (run gateway_up (FhevmClientImpl.ensureInitialized onSepolia) fresh) in
  initialized w readyInstance /\
  engine_add (fst (engine_call (Add8 256))) (snd (engine_call (Add8 256)))
    [(euint32, JNumber 500)] = Rejected (Foreign "value out of range") /\
  run gateway_up (EncryptedInputBuilderImpl.getEncrypted
                    (apply_calls ([Add32 500] ++ Add8 256 :: [AddBool true])
                       (createEncryptedInput onSepolia "0xC" "0xU"))) w
  = (Rejected (Foreign "value out of range"), w).
Proof.
  intros w. split; [split; reflexivity |]. split; [reflexivity |].
  apply (getEncrypted_stops_at_rejected_add gateway_up onSepolia [Add32 500]
           [AddBool true] (Add8 256) "0xC" "0xU" w readyInstance []
           [(euint32, JNumber 500)] (Foreign "value out of range")).
  - split; reflexivity.
  - reflexivity.
  - reflexivity.
  - reflexivity.
Defined.
End StrictExamples.
